(** * Transit search stage (src/search.py): period grid, duration guesses,
      finiteness filter and best-candidate selection

    The search stage is numerical glue around three library routines of
    numpy ([linspace], [clip], [nanargmax]) and one opaque collaborator
    (astropy's [BoxLeastSquares]).  The development embeds [run_bls],
    [period_to_duration_guess], [save_bls_results], [pick_best] and [main]
    and states the properties of the specification over them.

    Numbers.  A float64 is modelled as a rational or one of the three special
    values [+inf], [-inf], [nan].  Finite arithmetic is exact: rounding,
    overflow and the sign of zero are not represented.  Comparisons follow
    IEEE-754: every comparison with [nan] is false. *)

From Stdlib Require Import List ZArith QArith Qfield Lia Lqa Bool String.
From Stdlib Require Import DecimalString.
From Stdlib Require Import Ascii.
From Stdlib Require Import SpecFloat.
Import ListNotations.

(** ** float64 values *)

Inductive float64 : Type :=
| Fin (q : Q)
| PInf
| NInf
| NaN.

Declare Scope f64_scope.
Delimit Scope f64_scope with f64.
Bind Scope f64_scope with float64.

Module F64.

Definition zero : float64 := Fin 0.

(** int -> float64 conversion *)
Definition of_Z (z : Z) : float64 := Fin (inject_Z z).

(** np.isfinite / np.isnan *)
Definition isfinite (x : float64) : bool :=
  match x with Fin _ => true | _ => false end.

Definition isnan (x : float64) : bool :=
  match x with NaN => true | _ => false end.

(** sign of a rational: [Lt], [Eq] or [Gt] with respect to 0 *)
Definition sgn (q : Q) : comparison := (q ?= 0)%Q.

Definition neg (x : float64) : float64 :=
  match x with
  | Fin q => Fin (- q)
  | PInf => NInf
  | NInf => PInf
  | NaN => NaN
  end.

Definition add (x y : float64) : float64 :=
  match x, y with
  | NaN, _ | _, NaN => NaN
  | Fin a, Fin b => Fin (a + b)
  | PInf, NInf | NInf, PInf => NaN
  | PInf, _ | _, PInf => PInf
  | NInf, _ | _, NInf => NInf
  end.

Definition sub (x y : float64) : float64 := add x (neg y).

(** an infinity of the sign [c], [nan] for the sign of zero *)
Definition inf_of_sign (c : comparison) : float64 :=
  match c with Gt => PInf | Lt => NInf | Eq => NaN end.

Definition mul (x y : float64) : float64 :=
  match x, y with
  | NaN, _ | _, NaN => NaN
  | Fin a, Fin b => Fin (a * b)
  | Fin a, PInf | PInf, Fin a => inf_of_sign (sgn a)
  | Fin a, NInf | NInf, Fin a => inf_of_sign (CompOpp (sgn a))
  | PInf, PInf | NInf, NInf => PInf
  | PInf, NInf | NInf, PInf => NInf
  end.

(** numpy float division: a zero divisor gives an infinity or [nan],
    it does not raise *)
Definition div (x y : float64) : float64 :=
  match x, y with
  | NaN, _ | _, NaN => NaN
  | Fin a, Fin b =>
      match sgn b with
      | Eq => inf_of_sign (sgn a)
      | _ => Fin (a / b)
      end
  | Fin _, _ => Fin 0
  | PInf, Fin b => match sgn b with Lt => NInf | _ => PInf end
  | NInf, Fin b => match sgn b with Lt => PInf | _ => NInf end
  | _, _ => NaN
  end.

(** three-way comparison, [None] when unordered (a [nan] operand) *)
Definition cmp (x y : float64) : option comparison :=
  match x, y with
  | NaN, _ | _, NaN => None
  | Fin a, Fin b => Some (a ?= b)%Q
  | PInf, PInf | NInf, NInf => Some Eq
  | PInf, _ | _, NInf => Some Gt
  | NInf, _ | _, PInf => Some Lt
  end.

Definition ltb (x y : float64) : bool :=
  match cmp x y with Some Lt => true | _ => false end.
Definition leb (x y : float64) : bool :=
  match cmp x y with Some Lt | Some Eq => true | _ => false end.
Definition eqb (x y : float64) : bool :=
  match cmp x y with Some Eq => true | _ => false end.
Definition gtb (x y : float64) : bool := ltb y x.
Definition geb (x y : float64) : bool := leb y x.

(** np.maximum / np.minimum: a [nan] operand is propagated *)
Definition maximum (x y : float64) : float64 :=
  if isnan x then x else if isnan y then y else if geb x y then x else y.
Definition minimum (x y : float64) : float64 :=
  if isnan x then x else if isnan y then y else if leb x y then x else y.

(** the same number: equal rationals, or the same special value *)
Definition same (x y : float64) : Prop :=
  match x, y with
  | Fin a, Fin b => (a == b)%Q
  | PInf, PInf | NInf, NInf | NaN, NaN => True
  | _, _ => False
  end.

End F64.

Notation "x + y" := (F64.add x y) : f64_scope.
Notation "x - y" := (F64.sub x y) : f64_scope.
Notation "x * y" := (F64.mul x y) : f64_scope.
Notation "x / y" := (F64.div x y) : f64_scope.
Notation "x <? y" := (F64.ltb x y) : f64_scope.
Notation "x <=? y" := (F64.leb x y) : f64_scope.
Notation "x =? y" := (F64.eqb x y) : f64_scope.
Notation "x >? y" := (F64.gtb x y) : f64_scope.
Notation "x == y" := (F64.same x y) : f64_scope.

Local Open Scope string_scope.
Local Open Scope list_scope.

(** ** Exceptions, results and effects *)

(** A Python exception: its class, its message and its [__cause__]. *)
#[local] Set Warnings "-register-all".
Inductive exn : Type :=
| PyExn (cls : string) (msg : string) (cause : option exn).

Definition ValueError (msg : string) : exn := PyExn "ValueError" msg None.
Definition IndexError (msg : string) : exn := PyExn "IndexError" msg None.

(** [wraps cls e e']: [e'] is a new exception of class [cls] raised from [e]. *)
Definition wraps (cls : string) (e e' : exn) : Prop :=
  exists ctx, e' = PyExn cls ctx (Some e).

Inductive res (A : Type) : Type :=
| Ok (a : A)
| Raise (e : exn).
Arguments Ok {A} a.
Arguments Raise {A} e.

Definition res_bind {A B} (c : res A) (k : A -> res B) : res B :=
  match c with
  | Ok a => k a
  | Raise e => Raise e
  end.

Notation "'try' x <~ c ; k" := (res_bind c (fun x => k))
  (at level 10, x pattern, c at level 100, k at level 200).

(** Arguments of a deferred log format. *)
Inductive logarg : Type :=
| LFloat (x : float64)
| LInt (z : Z).

(** What the stage does to the outside world, in order. *)
Inductive event : Type :=
| EvLogInfo (fmt : string) (args : list logarg)
| EvBlsPower (t y periods durations : list float64)
| EvToCsv (path : string) (period power : list float64)
| EvWriteJson (path : string) (payload : list (string * float64)).

Definition is_bls_call (ev : event) : bool :=
  match ev with EvBlsPower _ _ _ _ => true | _ => false end.

Definition is_persistence (ev : event) : bool :=
  match ev with EvToCsv _ _ _ | EvWriteJson _ _ => true | _ => false end.

(** A computation maps the events so far to an outcome and the events after
    it; an exception keeps the events that happened before it. *)
Definition M (A : Type) : Type := list event -> res A * list event.

Definition ret {A} (a : A) : M A := fun tr => (Ok a, tr).
Definition raise {A} (e : exn) : M A := fun tr => (Raise e, tr).
Definition emit (ev : event) : M unit := fun tr => (Ok tt, tr ++ [ev]).
Definition lift {A} (r : res A) : M A := fun tr => (r, tr).
Definition bind {A B} (c : M A) (k : A -> M B) : M B :=
  fun tr =>
    match c tr with
    | (Ok a, tr') => k a tr'
    | (Raise e, tr') => (Raise e, tr')
    end.

Notation "'do' x <- c ; k" := (bind c (fun x => k))
  (at level 10, x pattern, c at level 100, k at level 200).

(** ** numpy routines used by the stage *)

Definition string_of_Z (z : Z) : string := NilZero.string_of_int (Z.to_int z).

(** [np.arange(0, num)] as floats *)
Definition arange (num : Z) : list float64 :=
  map (fun i => F64.of_Z (Z.of_nat i)) (seq 0 (Z.to_nat num)).

(** [y[-1] = v] on a non-empty array *)
Definition set_last (y : list float64) (v : float64) : list float64 :=
  match y with
  | [] => []
  | _ => removelast y ++ [v]
  end.

(** [np.linspace(start, stop, num)] with [endpoint=True]:
<<
    if num < 0: raise ValueError(...)
    div = num - 1
    y = arange(0, num); delta = stop - start
    if div > 0:
        step = delta / div
        if step == 0: y = y / div; y = y * delta
        else:         y = y * step
    else:
        y = y * delta
    y += start
    if num > 1: y[-1] = stop
>> *)
Definition linspace (start stop : float64) (num : Z) : res (list float64) :=
  if (num <? 0)%Z then
    Raise (ValueError ("Number of samples, " ++ string_of_Z num
                         ++ ", must be non-negative.")%string)
  else
    let div := (num - 1)%Z in
    let y := arange num in
    let delta := (stop - start)%f64 in
    let y :=
      if (0 <? div)%Z then
        let step := (delta / F64.of_Z div)%f64 in
        if (step =? F64.zero)%f64 then
          map (fun v => (v / F64.of_Z div * delta)%f64) y
        else
          map (fun v => (v * step)%f64) y
      else
        map (fun v => (v * delta)%f64) y in
    let y := map (fun v => (v + start)%f64) y in
    Ok (if (1 <? num)%Z then set_last y stop else y).

(** [np.clip(a, a_min, a_max)]: [minimum(maximum(a, a_min), a_max)] *)
Definition np_clip (a : list float64) (a_min a_max : float64) : list float64 :=
  map (fun x => F64.minimum (F64.maximum x a_min) a_max) a.

(** [np.isfinite] on an array, [&] of two boolean arrays, and indexing by a
    boolean mask [a[mask]] *)
Definition np_isfinite (a : list float64) : list bool := map F64.isfinite a.

Definition mask_and (m1 m2 : list bool) : list bool :=
  map (fun p => andb (fst p) (snd p)) (combine m1 m2).

Fixpoint bool_index {A} (a : list A) (mask : list bool) : list A :=
  match a, mask with
  | x :: a', b :: mask' =>
      if b then x :: bool_index a' mask' else bool_index a' mask'
  | _, _ => []
  end.

(** [np.argmax] on floats: the scan keeps the first maximum and stops at the
    first [nan], which counts as maximal:
<<
    mp = ip[0]; max_ind = 0
    if isnan(mp): return 0
    for i in 1..n-1:
        if not (ip[i] <= mp):
            mp = ip[i]; max_ind = i
            if isnan(mp): break
>> *)
Fixpoint argmax_scan (mp : float64) (max_ind i : nat) (ip : list float64)
  : nat :=
  match ip with
  | [] => max_ind
  | x :: ip' =>
      if negb (x <=? mp)%f64 then
        if F64.isnan x then i else argmax_scan x i (S i) ip'
      else argmax_scan mp max_ind (S i) ip'
  end.

Definition argmax (a : list float64) : res nat :=
  match a with
  | [] => Raise (ValueError "attempt to get argmax of an empty sequence")
  | mp :: ip => Ok (if F64.isnan mp then 0%nat else argmax_scan mp 0 1 ip)
  end.

(** [np.nanargmax]: every [nan] is replaced by [-inf], an all-[nan] array is
    refused, and [argmax] runs on the replaced array:
<<
    a, mask = _replace_nan(a, -np.inf)
    if mask.size and np.all(mask): raise ValueError("All-NaN slice encountered")
    return np.argmax(a)
>> *)
Definition replace_nan (a : list float64) (val : float64)
  : list float64 * list bool :=
  (map (fun x => if F64.isnan x then val else x) a, map F64.isnan a).

Definition nanargmax (a : list float64) : res nat :=
  let (a', mask) := replace_nan a NInf in
  if negb (List.length mask =? 0)%nat && forallb (fun b => b) mask then
    Raise (ValueError "All-NaN slice encountered")
  else argmax a'.

(** [a[idx]] for a non-negative index *)
Definition getitem (a : list float64) (idx : nat) : res float64 :=
  match nth_error a idx with
  | Some x => Ok x
  | None =>
      Raise (IndexError ("index " ++ string_of_Z (Z.of_nat idx)
                           ++ " is out of bounds for axis 0 with size "
                           ++ string_of_Z (Z.of_nat (List.length a)))%string)
  end.

(** ** Data of the search stage *)

(** A light curve is a table of samples; its [time] and [flux] columns have
    one entry per row. *)
Record LightCurve : Type := { samples : list (float64 * float64) }.

Definition time_value (lc : LightCurve) : list float64 := map fst (samples lc).
Definition flux_value (lc : LightCurve) : list float64 := map snd (samples lc).

(** The part of astropy's result object that the stage reads. *)
Record BLSResults : Type := { power : list float64 }.

(** The external primitive [BoxLeastSquares(t, y).power(periods, durations)]:
    any function of its four arguments that returns a result or raises. *)
Definition bls_primitive : Type :=
  list float64 -> list float64 -> list float64 -> list float64
  -> res BLSResults.

(** Command-line arguments of [main]. *)
Record Args : Type :=
  { input : string;
    min_period : float64;
    max_period : float64;
    n_periods : Z;
    out : string }.

(** Clamp range of the duration guess, in days. *)
Definition min_duration : float64 := Fin (5 # 1000).
Definition max_duration : float64 := Fin (5 # 10).

(** Default [duration_fraction] of [run_bls] and [fraction] of
    [period_to_duration_guess]. *)
Definition default_fraction : float64 := Fin (5 # 100).

(** ** The search stage *)

(** period_to_duration_guess (search.py, lines 47-51) *)
Definition period_to_duration_guess (periods : list float64)
  (fraction : float64) : list float64 :=
  let durations := map (fun p => (fraction * p)%f64) periods in
  let durations := np_clip durations min_duration max_duration in
  durations.

(** The grid construction of [run_bls] (search.py, lines 41-42). *)
Definition run_bls_grids (min_period max_period : float64) (n_periods : Z)
  (duration_fraction : float64) : res (list float64 * list float64) :=
  try periods <~ linspace min_period max_period n_periods;
  let durations := period_to_duration_guess periods duration_fraction in
  Ok (periods, durations).

(** The finiteness filter of [run_bls] (search.py, lines 31-36). *)
Definition run_bls_filter (lc : LightCurve) : list float64 * list float64 :=
  let t := time_value lc in
  let y := flux_value lc in
  let mask := mask_and (np_isfinite t) (np_isfinite y) in
  let t := bool_index t mask in
  let y := bool_index y mask in
  (t, y).

(** pick_best (search.py, lines 58-62) *)
Definition pick_best (periods power : list float64)
  : res (float64 * float64) :=
  try idx <~ nanargmax power;
  try best_period <~ getitem periods idx;
  try best_power <~ getitem power idx;
  Ok (best_period, best_power).

(** Two primitives to run the stage on: one that answers a flat periodogram
    and one that always fails. *)
Definition bls_flat : bls_primitive :=
  fun _ _ periods _ => Ok {| power := map (fun _ => Fin 1) periods |}.

Definition bls_broken : bls_primitive :=
  fun _ _ _ _ =>
    Raise (ValueError
             "The maximum transit duration must be shorter than the minimum period").

Section Stage.

(** The collaborators of the stage: the BLS primitive, the light-curve
    reader [lk.LightCurve.read] and [Path.with_suffix]. *)
Variable bls_power : bls_primitive.
Variable read_lightcurve : string -> res LightCurve.
Variable with_suffix : string -> string -> string.

Definition log_info (fmt : string) (args : list logarg) : M unit :=
  emit (EvLogInfo fmt args).

Definition call_bls (t y periods durations : list float64) : M BLSResults :=
  do _ <- emit (EvBlsPower t y periods durations);
  lift (bls_power t y periods durations).

(** run_bls (search.py, lines 26-45) *)
Definition run_bls (lc : LightCurve) (min_period max_period : float64)
  (n_periods : Z) (duration_fraction : float64)
  : M (list float64 * list float64 * BLSResults) :=
  let '(t, y) := run_bls_filter lc in
  if (Z.of_nat (List.length t) <? 10)%Z then
    raise (ValueError "Not enough valid points for BLS")
  else
    do _ <- log_info "BLS: periods grid from %.3f to %.3f (%d points)"
              [LFloat min_period; LFloat max_period; LInt n_periods];
    do (periods, durations) <-
       lift (run_bls_grids min_period max_period n_periods
               duration_fraction);
    do result <- call_bls t y periods durations;
    ret (periods, durations, result).

(** save_bls_results (search.py, lines 53-56) *)
Definition save_bls_results (periods power : list float64)
  (out_csv : string) : M unit :=
  emit (EvToCsv out_csv periods power).

(** write_json (utils.py, lines 31-36) *)
Definition write_json (path : string) (payload : list (string * float64))
  : M unit :=
  emit (EvWriteJson path payload).

(** main (search.py, lines 64-82) *)
Definition main (args : Args) : M unit :=
  do lc <- lift (read_lightcurve (input args));
  do (periods, durations, result) <-
     run_bls lc (min_period args) (max_period args) (n_periods args)
       default_fraction;
  do _ <- save_bls_results periods (power result) (out args);
  do (best_period, best_power) <- lift (pick_best periods (power result));
  do _ <- log_info "Best period: %.6f days (power=%.4f)"
            [LFloat best_period; LFloat best_power];
  let summary := [("best_period", best_period); ("best_power", best_power)] in
  write_json (with_suffix (out args) ".summary.json") summary.

End Stage.

(** ** Vocabulary of the specification *)

(** A sample is valid when both of its components are finite. *)
Definition both_finite (s : float64 * float64) : bool :=
  F64.isfinite (fst s) && F64.isfinite (snd s).

(** A light curve with the samples that carry a [nan] removed beforehand,
    and one with every non-finite sample removed beforehand. *)
Definition has_nan (s : float64 * float64) : bool :=
  F64.isnan (fst s) || F64.isnan (snd s).

Definition remove_nan_samples (lc : LightCurve) : LightCurve :=
  {| samples := filter (fun s => negb (has_nan s)) (samples lc) |}.

Definition remove_nonfinite_samples (lc : LightCurve) : LightCurve :=
  {| samples := filter both_finite (samples lc) |}.

(** A valid search configuration: two finite periods with
    [0 < min_period < max_period], and at least two grid points. *)
Definition valid_config (min_period max_period : float64) (n_periods : Z)
  : bool :=
  F64.isfinite min_period && F64.isfinite max_period
  && (F64.zero <? min_period)%f64 && (min_period <? max_period)%f64
  && (2 <=? n_periods)%Z.

(** [clamp(x, lo, hi)] as the specification words it. *)
Definition clamp (x lo hi : float64) : float64 :=
  if (x <? lo)%f64 then lo else if (x >? hi)%f64 then hi else x.

(** Sample inputs: a light curve of twelve samples, the fourth with a [nan]
    flux; one of nine finite samples; a short-period configuration. *)
Definition lc12 : LightCurve :=
  {| samples :=
       map (fun i => (F64.of_Z (Z.of_nat i),
                      if (i =? 3)%nat then NaN else Fin 1))
         (seq 0 12) |}.

Definition lc9 : LightCurve :=
  {| samples := map (fun i => (F64.of_Z (Z.of_nat i), Fin 1)) (seq 0 9) |}.

Definition read_lc9 : string -> res LightCurve := fun _ => Ok lc9.

Definition args_default (o : string) : Args :=
  {| input := "lightcurve.fits";
     min_period := Fin (1 # 2);
     max_period := Fin 10;
     n_periods := 3;
     out := o |}.

(** The log event of the grid and the error of the sample-count check. *)
Definition grid_log (min_period max_period : float64) (n_periods : Z)
  : event :=
  EvLogInfo "BLS: periods grid from %.3f to %.3f (%d points)"
    [LFloat min_period; LFloat max_period; LInt n_periods].

Definition not_enough_points : exn :=
  ValueError "Not enough valid points for BLS".

(** The [i]-th point of the uniform grid of [m + 1] points from [a] to [b]. *)
Definition grid_point (a b : Q) (m i : nat) : Q :=
  (inject_Z (Z.of_nat i) * ((b + - a) / inject_Z (Z.of_nat m)) + a)%Q.

(** Arrays without [nan], and [nan] replaced as [nanargmax] does. *)
Definition no_nan (a : list float64) : Prop :=
  Forall (fun x => F64.isnan x = false) a.

Definition nan_to_ninf (x : float64) : float64 :=
  if F64.isnan x then NInf else x.

(** The index, the maximum it holds, and the strict bound on what is before. *)
Definition first_max_at (a : list float64) (k : nat) (w : float64) : Prop :=
  nth_error a k = Some w
  /\ Forall (fun y => (y <=? w)%f64 = true) a
  /\ forall j y, (j < k)%nat -> nth_error a j = Some y -> (y <? w)%f64 = true.

(** A primitive that answers a periodogram of [nan] only. *)
Definition bls_nan : bls_primitive :=
  fun _ _ periods _ => Ok {| power := map (fun _ => NaN) periods |}.

Definition read_lc12 : string -> res LightCurve := fun _ => Ok lc12.

(** The log event of the best candidate. *)
Definition best_log (best_period best_power : float64) : event :=
  EvLogInfo "Best period: %.6f days (power=%.4f)"
    [LFloat best_period; LFloat best_power].

(** Rows of a periodogram: a period and its power.  The key of a row is
    its power as [nanargmax] compares it; [best_of] keeps the first row of
    strictly greatest key. *)
Definition row_key (z : float64 * float64) : float64 := nan_to_ninf (snd z).

Definition best_of (best : float64 * float64)
  (rows : list (float64 * float64)) : float64 * float64 :=
  fold_left
    (fun b z => if negb (row_key z <=? row_key b)%f64 then z else b)
    rows best.

Definition power_is_number (z : float64 * float64) : bool :=
  negb (F64.isnan (snd z)).

(** * The other stages

    The loading, download and plotting scripts are modelled with the same
    results and exceptions.  Each script has its own events; a computation
    over events [E] threads the trace as the search stage does. *)

Definition T (E A : Type) : Type := list E -> res A * list E.

Definition t_ret {E A} (a : A) : T E A := fun tr => (Ok a, tr).
Definition t_raise {E A} (e : exn) : T E A := fun tr => (Raise e, tr).
Definition t_emit {E} (ev : E) : T E unit := fun tr => (Ok tt, tr ++ [ev]).
Definition t_lift {E A} (r : res A) : T E A := fun tr => (r, tr).
Definition t_bind {E A B} (c : T E A) (k : A -> T E B) : T E B :=
  fun tr =>
    match c tr with
    | (Ok a, tr') => k a tr'
    | (Raise e, tr') => (Raise e, tr')
    end.

(** [try: c  except Exception: h]; the events of the failed attempt stay. *)
Definition t_catch {E A} (c : T E A) (h : T E A) : T E A :=
  fun tr =>
    match c tr with
    | (Ok a, tr') => (Ok a, tr')
    | (Raise _, tr') => h tr'
    end.

Notation "'run' x <- c ; k" := (t_bind c (fun x => k))
  (at level 10, x pattern, c at level 100, k at level 200).

(** ** Python strings, truth values and slices *)

(** [str.lower()] on the ASCII capitals; the other bytes stay. *)
Definition ascii_lower (c : ascii) : ascii :=
  let n := nat_of_ascii c in
  if (65 <=? n)%nat && (n <=? 90)%nat then ascii_of_nat (n + 32) else c.

Fixpoint lower (s : string) : string :=
  match s with
  | EmptyString => EmptyString
  | String c s' => String (ascii_lower c) (lower s')
  end.

(** [s.startswith(sub)] and [sub in s] *)
Fixpoint starts_with (sub s : string) : bool :=
  match sub, s with
  | EmptyString, _ => true
  | String a sub', String b s' => Ascii.eqb a b && starts_with sub' s'
  | String _ _, EmptyString => false
  end.

Fixpoint contains (sub s : string) : bool :=
  starts_with sub s
  || match s with
     | EmptyString => false
     | String _ s' => contains sub s'
     end.

(** [s in (a, b, ...)] for a tuple of strings *)
Definition in_tuple (s : string) (t : list string) : bool :=
  existsb (String.eqb s) t.

(** Truth value of an optional integer, string or float argument. *)
Definition truthy_int (x : option Z) : bool :=
  match x with Some k => negb (k =? 0)%Z | None => false end.

Definition truthy_str (x : option string) : bool :=
  match x with Some s => negb (String.eqb s "") | None => false end.

Definition truthy_float (x : option float64) : bool :=
  match x with Some v => negb (v =? F64.zero)%f64 | None => false end.

(** [l[:stop]] *)
Definition slice_to {A} (l : list A) (stop : Z) : list A :=
  let len := Z.of_nat (List.length l) in
  let stop :=
    if (stop <? 0)%Z then Z.max (stop + len) 0 else Z.min stop len in
  firstn (Z.to_nat stop) l.

Definition KeyError (key : string) : exn := PyExn "KeyError" key None.
Definition RuntimeError (msg : string) : exn := PyExn "RuntimeError" msg None.
Definition FileNotFoundError (path : string) : exn :=
  PyExn "FileNotFoundError" path None.
Definition UnboundLocalError (msg : string) : exn :=
  PyExn "UnboundLocalError" msg None.

(** A pandas table of floats: its columns in order, each with its label.
    [read_csv] makes the labels distinct and the columns equally long. *)
Record DataFrame : Type := { df_data : list (string * list float64) }.

Definition df_columns (df : DataFrame) : list string := map fst (df_data df).

(** [df[label].values] *)
Definition df_getitem (df : DataFrame) (label : string)
  : res (list float64) :=
  match find (fun col => String.eqb (fst col) label) (df_data df) with
  | Some col => Ok (snd col)
  | None => Raise (KeyError label)
  end.

(** ** preprocess.py *)

Module Preprocess.

Inductive event : Type :=
| EvLogInfo (fmt : string) (arg : string)
| EvReadFits (path : string)
| EvReadCsv (path : string).

(** The column search of [load_lightcurve] (preprocess.py, lines 36-43):
    one step of the loop over [df.columns], and the loop. *)
Definition column_step (st : option string * option string) (c : string)
  : option string * option string :=
  let '(time_col, flux_col) := st in
  let c_lower := lower c in
  let time_col :=
    if contains "time" c_lower
       && match time_col with None => true | Some _ => false end
    then Some c else time_col in
  let flux_col :=
    if (contains "flux" c_lower || contains "pdcsap_flux" c_lower
        || contains "sap_flux" c_lower)
       && match flux_col with None => true | Some _ => false end
    then Some c else flux_col in
  (time_col, flux_col).

Definition csv_columns (df : DataFrame) : option string * option string :=
  fold_left column_step (df_columns df) (None, None).

Section Stage.

(** The collaborators: [Path.exists], [Path.suffix], [lk.LightCurve.read]
    and [pd.read_csv]. *)
Variable path_exists : string -> bool.
Variable path_suffix : string -> string.
Variable lk_read : string -> res LightCurve.
Variable pd_read_csv : string -> res DataFrame.

(** load_lightcurve (preprocess.py, lines 24-49).  The constructor
    [lk.LightCurve(time=..., flux=...)] is embedded as the pairing of the two
    columns, which is what it builds from a table it accepts; it refuses a
    table without rows or with a time that is not finite, and the
    properties of the returned light curve are stated for accepted tables
    only. *)
Definition load_lightcurve (path : string) : T event LightCurve :=
  if negb (path_exists path) then t_raise (FileNotFoundError path)
  else
    run _ <- t_emit (EvLogInfo "Loading %s" path);
    if in_tuple (lower (path_suffix path)) [".fits"; ".fz"] then
      run _ <- t_emit (EvReadFits path);
      t_lift (lk_read path)
    else if in_tuple (lower (path_suffix path)) [".csv"; ".txt"] then
      run _ <- t_emit (EvReadCsv path);
      run df <- t_lift (pd_read_csv path);
      match csv_columns df with
      | (Some time_col, Some flux_col) =>
          run time <- t_lift (df_getitem df time_col);
          run flux <- t_lift (df_getitem df flux_col);
          t_ret {| samples := combine time flux |}
      | _ => t_raise (ValueError "CSV must contain time and flux columns")
      end
    else
      t_raise (ValueError ("Unsupported file extension: "
                             ++ path_suffix path)%string).

End Stage.

End Preprocess.

(** A column label mentions the time, or the flux, whatever its case. *)
Definition time_like (c : string) : bool := contains "time" (lower c).
Definition flux_like (c : string) : bool := contains "flux" (lower c).

(** ** download.py *)

Module Download.

Inductive logval : Type :=
| LStr (s : string)
| LNum (z : Z).

Section Stage.

(** A row of a search result and a downloaded light curve, both opaque. *)
Variable Entry : Type.
Variable Curve : Type.

Inductive event : Type :=
| EvLogInfo (fmt : string) (args : list logval)
| EvLogWarning (msg : string)
| EvSearch (target mission : string)
| EvDownloadAll (search_result : list Entry)
| EvStitch (collection : list Curve)
| EvAppend (stitched lc : Curve).

(** The collaborators: [search_lightcurve], [SearchResult.download_all],
    [LightCurveCollection.stitch] and [LightCurve.append]. *)
Variable search_lightcurve : string -> string -> res (list Entry).
Variable download_all : list Entry -> res (option (list Curve)).
Variable stitch : list Curve -> res Curve.
Variable append : Curve -> Curve -> res Curve.

(** [for lc in rest: stitched = stitched.append(lc)] *)
Fixpoint append_all (stitched : Curve) (rest : list Curve) : T event Curve :=
  match rest with
  | [] => t_ret stitched
  | lc :: rest' =>
      run _ <- t_emit (EvAppend stitched lc);
      run stitched <- t_lift (append stitched lc);
      append_all stitched rest'
  end.

(** search_and_download (download.py, lines 25-56) *)
Definition search_and_download (target mission : string) (limit : option Z)
  : T event Curve :=
  run _ <- t_emit (EvLogInfo "Searching for target: %s (mission=%s)"
                     [LStr target; LStr mission]);
  run _ <- t_emit (EvSearch target mission);
  run search_result <- t_lift (search_lightcurve target mission);
  run _ <- t_emit (EvLogInfo "Found %d results"
                     [LNum (Z.of_nat (List.length search_result))]);
  if (List.length search_result =? 0)%nat then
    t_raise (ValueError ("No lightcurve results for " ++ target)%string)
  else
    run search_result <-
      match limit with
      | Some k =>
          if truthy_int limit then
            run _ <- t_emit
                       (EvLogInfo
                          "Limiting download to first %d search results"
                          [LNum k]);
            t_ret (slice_to search_result k)
          else t_ret search_result
      | None => t_ret search_result
      end;
    run _ <- t_emit
               (EvLogInfo
                  "Downloading lightcurves (this may take time depending on network)"
                  []);
    run _ <- t_emit (EvDownloadAll search_result);
    run lc_collection <- t_lift (download_all search_result);
    match lc_collection with
    | None => t_raise (RuntimeError "download_all() returned None")
    | Some lc_collection =>
        run _ <- t_emit
                   (EvLogInfo "Stitching lightcurves into a single LightCurve"
                      []);
        t_catch
          (run _ <- t_emit (EvStitch lc_collection);
           t_lift (stitch lc_collection))
          (run _ <- t_emit (EvLogWarning "Stitch failed; trying manual append");
           match lc_collection with
           | [] => t_raise (IndexError "list index out of range")
           | stitched :: rest => append_all stitched rest
           end)
    end.

End Stage.

Arguments EvLogInfo {Entry Curve} fmt args.
Arguments EvLogWarning {Entry Curve} msg.
Arguments EvSearch {Entry Curve} target mission.
Arguments EvDownloadAll {Entry Curve} search_result.
Arguments EvStitch {Entry Curve} collection.
Arguments EvAppend {Entry Curve} stitched lc.
Arguments append_all {Entry Curve} append stitched rest _.
Arguments search_and_download {Entry Curve} search_lightcurve download_all
  stitch append target mission limit _.

Definition is_download {Entry Curve} (ev : event Entry Curve) : bool :=
  match ev with EvDownloadAll _ => true | _ => false end.

End Download.

(** ** plot.py *)

Module Plot.

(** A call into matplotlib's [pyplot]. *)
Inductive plt_call : Type :=
| Figure
| Plot (x y : list float64)
| Xlabel
| Ylabel
| Title
| TightLayout
| Savefig (path : string)
| Close.

Inductive event : Type :=
| EvMkdirParent (path : string)
| EvPlt (call : plt_call)
| EvLogInfo (fmt : string) (arg : string).

Record Args : Type :=
  { lc : string;
    bls : option string;
    period : option float64;
    out_prefix : string }.

Section Stage.

(** The collaborators: [lk.LightCurve.read], [pd.read_csv],
    [LightCurve.fold], which answers the phase and the flux columns,
    [Path.parent.mkdir] and matplotlib; each of them may raise. *)
Variable lk_read : string -> res LightCurve.
Variable pd_read_csv : string -> res DataFrame.
Variable lc_fold : LightCurve -> float64 -> res (list float64 * list float64).
Variable mkdir_parent : string -> res unit.
Variable plt : plt_call -> res unit.

Definition call_plt (c : plt_call) : T event unit :=
  run _ <- t_emit (EvPlt c);
  t_lift (plt c).

Definition call_mkdir (path : string) : T event unit :=
  run _ <- t_emit (EvMkdirParent path);
  t_lift (mkdir_parent path).

(** plot_lightcurve (plot.py, lines 27-37) *)
Definition plot_lightcurve (lc : LightCurve) (out_path title : string)
  : T event unit :=
  run _ <- call_mkdir out_path;
  run _ <- call_plt Figure;
  run _ <- call_plt (Plot (time_value lc) (flux_value lc));
  run _ <- call_plt Xlabel;
  run _ <- call_plt Ylabel;
  run _ <- call_plt Title;
  run _ <- call_plt TightLayout;
  run _ <- call_plt (Savefig out_path);
  run _ <- call_plt Close;
  t_emit (EvLogInfo "Saved plot %s" out_path).

(** plot_bls (plot.py, lines 39-49) *)
Definition plot_bls (periods power : list float64) (out_path : string)
  : T event unit :=
  run _ <- call_plt Figure;
  run _ <- call_plt (Plot periods power);
  run _ <- call_plt Xlabel;
  run _ <- call_plt Ylabel;
  run _ <- call_plt Title;
  run _ <- call_plt TightLayout;
  run _ <- call_mkdir out_path;
  run _ <- call_plt (Savefig out_path);
  run _ <- call_plt Close;
  t_emit (EvLogInfo "Saved plot %s" out_path).

(** plot_phase_fold (plot.py, lines 51-76).  The statement
    [import numpy as np] on line 59 of the body makes [np] a local name of
    the whole function, so once the fold, [plt.figure] and [plt.plot] of
    lines 52-54 have gone through, the use of [np.linspace] on line 56,
    before that import has run, raises UnboundLocalError; the binning and
    the saving after it are never reached. *)
Definition plot_phase_fold (lc : LightCurve) (period : float64)
  (out_path : string) (bins : Z) : T event unit :=
  run folded <- t_lift (lc_fold lc period);
  run _ <- call_plt Figure;
  run _ <- call_plt (Plot (fst folded) (snd folded));
  t_raise (UnboundLocalError
             "cannot access local variable 'np' where it is not associated with a value").

(** main (plot.py, lines 78-92) *)
Definition main (args : Args) : T event unit :=
  run lc <- t_lift (lk_read (lc args));
  run _ <- plot_lightcurve lc (out_prefix args ++ "_lightcurve.png")%string
             "Lightcurve";
  run _ <-
    match bls args with
    | Some path =>
        if truthy_str (bls args) then
          run df <- t_lift (pd_read_csv path);
          run periods <- t_lift (df_getitem df "period");
          run power <- t_lift (df_getitem df "power");
          plot_bls periods power (out_prefix args ++ "_bls.png")%string
        else t_ret tt
    | None => t_ret tt
    end;
  match period args with
  | Some p =>
      if truthy_float (period args) then
        plot_phase_fold lc p (out_prefix args ++ "_phase.png")%string 200
      else t_ret tt
  | None => t_ret tt
  end.

End Stage.

End Plot.

(** A computation that never returns normally, and one that keeps a
    property of the trace. *)
Definition never_ok {E A} (c : T E A) : Prop :=
  forall tr, exists e, fst (c tr) = Raise e.

Definition keeps {E A} (P : list E -> Prop) (c : T E A) : Prop :=
  forall tr, P tr -> P (snd (c tr)).

(** Matplotlib that always succeeds, and a directory that can be made. *)
Definition plt_ok : Plot.plt_call -> res unit := fun _ => Ok tt.
Definition mkdir_ok : string -> res unit := fun _ => Ok tt.


(** Sample inputs of the other stages: three tables, a search that finds
    three rows, and arguments of the plotting script with a period. *)
Definition df_tess : DataFrame :=
  {| df_data := [("TIME", [Fin 1; Fin 2]);
                 ("PDCSAP_FLUX", [Fin (99 # 100); Fin (101 # 100)]);
                 ("flux_err", [Fin (1 # 100); Fin (1 # 100)])] |}.

Definition df_no_flux : DataFrame :=
  {| df_data := [("time", [Fin 1; Fin 2]); ("mag", [Fin 12; Fin 13])] |}.


Definition search_three : string -> string -> res (list nat) :=
  fun _ _ => Ok [1; 2; 3]%nat.

Definition download_ids : list nat -> res (option (list nat)) :=
  fun rows => Ok (Some rows).

Definition stitch_sum : list nat -> res nat :=
  fun collection => Ok (fold_left Nat.add collection 0%nat).

Definition append_sum : nat -> nat -> res nat := fun a b => Ok (a + b)%nat.

Definition plot_args : Plot.Args :=
  {| Plot.lc := "lightcurve.fits";
     Plot.bls := None;
     Plot.period := Some (Fin (3 # 1));
     Plot.out_prefix := "plots/figure" |}.

Definition fold_identity : LightCurve -> float64
                           -> res (list float64 * list float64) :=
  fun lc _ => Ok (time_value lc, flux_value lc).

(** * The period grid in binary64

    The rational model above idealises the arithmetic.  Where rounding
    decides, [np.linspace] is evaluated on IEEE-754 binary64 values as the
    standard library specifies them: 53 bits of precision, rounding to
    nearest even. *)

Module B64.

Definition prec : Z := 53.
Definition emax : Z := 1024.

Definition zero : spec_float := S754_zero false.

(** int -> float64 conversion *)
Definition of_Z (z : Z) : spec_float := binary_normalize prec emax z 0 false.

Definition add : spec_float -> spec_float -> spec_float := SFadd prec emax.
Definition sub : spec_float -> spec_float -> spec_float := SFsub prec emax.
Definition mul : spec_float -> spec_float -> spec_float := SFmul prec emax.
Definition div : spec_float -> spec_float -> spec_float := SFdiv prec emax.

Definition eqb : spec_float -> spec_float -> bool := SFeqb.
Definition ltb : spec_float -> spec_float -> bool := SFltb.

(** np.isfinite *)
Definition isfinite (x : spec_float) : bool :=
  match x with
  | S754_zero _ | S754_finite _ _ _ => true
  | S754_infinity _ | S754_nan => false
  end.

End B64.

Definition arange64 (num : Z) : list spec_float :=
  map (fun i => B64.of_Z (Z.of_nat i)) (seq 0 (Z.to_nat num)).

Definition set_last64 (y : list spec_float) (v : spec_float)
  : list spec_float :=
  match y with
  | [] => []
  | _ => removelast y ++ [v]
  end.

(** [np.linspace(start, stop, num)], the algorithm of [linspace] step for
    step, on binary64 values. *)
Definition linspace64 (start stop : spec_float) (num : Z)
  : res (list spec_float) :=
  if (num <? 0)%Z then
    Raise (ValueError ("Number of samples, " ++ string_of_Z num
                         ++ ", must be non-negative.")%string)
  else
    let div := (num - 1)%Z in
    let y := arange64 num in
    let delta := B64.sub stop start in
    let y :=
      if (0 <? div)%Z then
        let step := B64.div delta (B64.of_Z div) in
        if B64.eqb step B64.zero then
          map (fun v => B64.mul (B64.div v (B64.of_Z div)) delta) y
        else
          map (fun v => B64.mul v step) y
      else
        map (fun v => B64.mul v delta) y in
    let y := map (fun v => B64.add v start) y in
    Ok (if (1 <? num)%Z then set_last64 y stop else y).



(** * Properties *)

(** ** The finiteness filter *)

Lemma bool_index_columns (l : list (float64 * float64)) :
  bool_index (map fst l)
    (mask_and (np_isfinite (map fst l)) (np_isfinite (map snd l)))
  = map fst (filter both_finite l)
  /\ bool_index (map snd l)
       (mask_and (np_isfinite (map fst l)) (np_isfinite (map snd l)))
     = map snd (filter both_finite l).
Proof.
  unfold mask_and, np_isfinite.
  induction l as [|[t y] l [IHt IHy]]; [now split|].
  cbn [map fst snd combine bool_index filter].
  change (both_finite (t, y)) with (F64.isfinite t && F64.isfinite y).
  destruct (F64.isfinite t && F64.isfinite y); cbn [map fst snd];
    split; congruence.
Qed.

Lemma run_bls_filter_columns (lc : LightCurve) :
  run_bls_filter lc
  = (map fst (filter both_finite (samples lc)),
     map snd (filter both_finite (samples lc))).
Proof.
  unfold run_bls_filter, time_value, flux_value.
  destruct (bool_index_columns (samples lc)) as [-> ->]. reflexivity.
Qed.

Lemma combine_columns {A B} (l : list (A * B)) :
  combine (map fst l) (map snd l) = l.
Proof.
  induction l as [|[a b] l IH]; cbn; [reflexivity | now rewrite IH].
Qed.

Lemma both_finite_no_nan s : both_finite s = true -> has_nan s = false.
Proof.
  destruct s as [[] []]; cbn; congruence.
Qed.

Lemma filter_filter_weaker {A} (p q : A -> bool) (l : list A) :
  (forall x, p x = true -> q x = true) ->
  filter p (filter q l) = filter p l.
Proof.
  intros Hpq. induction l as [|x l IH]; cbn; [reflexivity|].
  destruct (q x) eqn:Hq; cbn.
  - now rewrite IH.
  - destruct (p x) eqn:Hp; [apply Hpq in Hp; congruence | exact IH].
Qed.

Lemma run_bls_filter_pre_removed (lc : LightCurve) :
  run_bls_filter (remove_nan_samples lc) = run_bls_filter lc
  /\ run_bls_filter (remove_nonfinite_samples lc) = run_bls_filter lc.
Proof.
  rewrite !run_bls_filter_columns. cbn [samples remove_nan_samples
    remove_nonfinite_samples].
  split; rewrite filter_filter_weaker; trivial.
  intros s Hs. now rewrite (both_finite_no_nan s Hs).
Qed.

(** C10.  The filter of [run_bls] keeps or drops a sample as a whole: the
    filtered time and flux columns have the same length, put side by side
    they are exactly the samples of the light curve with both components
    finite, in their original order, and so every retained pair is finite and
    was a sample of the input. *)
Theorem run_bls_filter_whole_samples (lc : LightCurve) :
  let (t, y) := run_bls_filter lc in
  List.length t = List.length y
  /\ combine t y = filter both_finite (samples lc)
  /\ Forall (fun s => F64.isfinite (fst s) = true
                      /\ F64.isfinite (snd s) = true) (combine t y)
  /\ (forall i ti yi,
         nth_error t i = Some ti -> nth_error y i = Some yi ->
         In (ti, yi) (samples lc)).
Proof.
  rewrite run_bls_filter_columns.
  set (kept := filter both_finite (samples lc)).
  assert (Hc : combine (map fst kept) (map snd kept) = kept)
    by apply combine_columns.
  repeat split.
  - now rewrite !length_map.
  - exact Hc.
  - rewrite Hc. apply Forall_forall. intros s Hs.
    apply filter_In in Hs as [_ Hs]. unfold both_finite in Hs.
    now apply andb_true_iff in Hs.
  - intros i ti yi Ht Hy.
    assert (Hi : nth_error kept i = Some (ti, yi)).
    { rewrite nth_error_map in Ht, Hy.
      destruct (nth_error kept i) as [[a b]|]; cbn in *; congruence. }
    apply nth_error_In in Hi. now apply filter_In in Hi.
Qed.

(** ** [run_bls] and [main] step by step *)

Section StageProperties.

Variable bls_power : bls_primitive.
Variable read_lightcurve : string -> res LightCurve.
Variable with_suffix : string -> string -> string.

Lemma run_bls_steps lc mn mx n f tr t y :
  run_bls_filter lc = (t, y) ->
  run_bls bls_power lc mn mx n f tr
  = if (Z.of_nat (List.length t) <? 10)%Z then (Raise not_enough_points, tr)
    else
      match run_bls_grids mn mx n f with
      | Raise e => (Raise e, tr ++ [grid_log mn mx n])
      | Ok (ps, ds) =>
          match bls_power t y ps ds with
          | Ok r =>
              (Ok (ps, ds, r),
               tr ++ [grid_log mn mx n; EvBlsPower t y ps ds])
          | Raise e =>
              (Raise e, tr ++ [grid_log mn mx n; EvBlsPower t y ps ds])
          end
      end.
Proof.
  intros Hf. unfold run_bls. rewrite Hf.
  destruct (Z.of_nat (List.length t) <? 10)%Z; [reflexivity|].
  unfold bind, log_info, emit, lift, call_bls, ret.
  destruct (run_bls_grids mn mx n f) as [[ps ds]|e]; [|reflexivity].
  unfold bind, emit. rewrite <- app_assoc. cbn [app].
  destruct (bls_power t y ps ds); reflexivity.
Qed.

(** C6.  Running the search on a light curve from which the samples with a
    [nan] in [t] or [y] (or all the non-finite samples) were removed
    beforehand gives the same outcome, and the same events, as running it on
    the light curve itself, for every configuration. *)
Theorem run_bls_filtering_is_pre_removal lc mn mx n f tr :
  run_bls bls_power (remove_nan_samples lc) mn mx n f tr
  = run_bls bls_power lc mn mx n f tr
  /\ run_bls bls_power (remove_nonfinite_samples lc) mn mx n f tr
     = run_bls bls_power lc mn mx n f tr.
Proof.
  destruct (run_bls_filter_pre_removed lc) as [Hnan Hfin].
  destruct (run_bls_filter lc) as [t y] eqn:Hf.
  now rewrite !(run_bls_steps _ _ _ _ _ _ _ _ Hf),
    (run_bls_steps _ _ _ _ _ _ _ _ Hnan),
    (run_bls_steps _ _ _ _ _ _ _ _ Hfin).
Qed.

(** C4.  When fewer than ten samples have both components finite,
    [run_bls] raises its "Not enough valid points" error (the
    specification's InsufficientDataError) and leaves the event trace as it
    was: the primitive is not called and no result is returned.  [main] on
    such a light curve raises the same error with the trace unchanged:
    neither the periodogram table nor the summary is written. *)
Theorem run_bls_insufficient_data lc mn mx n f tr :
  (List.length (filter both_finite (samples lc)) < 10)%nat ->
  run_bls bls_power lc mn mx n f tr = (Raise not_enough_points, tr)
  /\ (forall args,
         read_lightcurve (input args) = Ok lc ->
         main bls_power read_lightcurve with_suffix args tr
         = (Raise not_enough_points, tr)
         /\ filter is_bls_call
              (snd (main bls_power read_lightcurve with_suffix args [])) = []
         /\ filter is_persistence
              (snd (main bls_power read_lightcurve with_suffix args [])) = []).
Proof.
  intros Hlen.
  assert (Hrun : forall mn mx n f,
             run_bls bls_power lc mn mx n f tr
             = (Raise not_enough_points, tr)).
  { intros. rewrite (run_bls_steps _ _ _ _ _ _ _ _ (run_bls_filter_columns lc)).
    rewrite length_map.
    destruct (Z.ltb_spec (Z.of_nat (List.length
                (filter both_finite (samples lc)))) 10); [reflexivity|lia]. }
  split; [apply Hrun|].
  assert (Hrun0 : forall mn mx n f,
             run_bls bls_power lc mn mx n f []
             = (Raise not_enough_points, [])).
  { intros. rewrite (run_bls_steps _ _ _ _ _ _ _ _ (run_bls_filter_columns lc)).
    rewrite length_map.
    destruct (Z.ltb_spec (Z.of_nat (List.length
                (filter both_finite (samples lc)))) 10); [reflexivity|lia]. }
  intros args Hread. unfold main, bind, lift. rewrite Hread, Hrun, Hrun0.
  repeat split.
Qed.

(** C9 (as the code has it).  When the primitive raises [e] on the filtered
    samples and the grids, [run_bls] raises that same [e], unchanged; the
    trace gains the grid log and exactly one call of the primitive, and no
    result is returned. *)
Theorem run_bls_primitive_failure lc mn mx n f tr t y ps ds e :
  run_bls_filter lc = (t, y) ->
  (10 <= List.length t)%nat ->
  run_bls_grids mn mx n f = Ok (ps, ds) ->
  bls_power t y ps ds = Raise e ->
  run_bls bls_power lc mn mx n f tr
  = (Raise e, tr ++ [grid_log mn mx n; EvBlsPower t y ps ds])
  /\ List.length (filter is_bls_call (snd (run_bls bls_power lc mn mx n f [])))
     = 1%nat.
Proof.
  intros Hf Hlen Hgrid Hbls.
  assert (Hrun : forall tr0,
             run_bls bls_power lc mn mx n f tr0
             = (Raise e, tr0 ++ [grid_log mn mx n; EvBlsPower t y ps ds])).
  { intros tr0. rewrite (run_bls_steps _ _ _ _ _ _ _ _ Hf), Hgrid, Hbls.
    destruct (Z.ltb_spec (Z.of_nat (List.length t)) 10); [lia|reflexivity]. }
  split; [apply Hrun|]. rewrite Hrun. reflexivity.
Qed.

End StageProperties.

(** ** Arithmetic of finite values *)

Lemma sgn_inject_Z_pos (z : Z) : (0 < z)%Z -> F64.sgn (inject_Z z) = Gt.
Proof.
  intros Hz. unfold F64.sgn. apply Qgt_alt.
  change 0%Q with (inject_Z 0). rewrite <- Zlt_Qlt. exact Hz.
Qed.

Lemma div_of_Z_pos (x : Q) (z : Z) :
  (0 < z)%Z -> (Fin x / F64.of_Z z)%f64 = Fin (x / inject_Z z).
Proof.
  intros Hz. unfold F64.div, F64.of_Z. now rewrite sgn_inject_Z_pos.
Qed.

Lemma eqb_Fin (x y : Q) : (Fin x =? Fin y)%f64 = true <-> (x == y)%Q.
Proof.
  unfold F64.eqb, F64.cmp. rewrite Qeq_alt.
  destruct (x ?= y)%Q; split; congruence.
Qed.

Lemma ltb_Fin (x y : Q) : (Fin x <? Fin y)%f64 = true <-> (x < y)%Q.
Proof.
  unfold F64.ltb, F64.cmp. rewrite Qlt_alt.
  destruct (x ?= y)%Q; split; congruence.
Qed.

Lemma leb_Fin (x y : Q) : (Fin x <=? Fin y)%f64 = true <-> (x <= y)%Q.
Proof.
  unfold F64.leb, F64.cmp. rewrite Qle_alt.
  destruct (x ?= y)%Q; split; congruence.
Qed.

Lemma valid_config_inv mn mx n :
  valid_config mn mx n = true ->
  exists a b, mn = Fin a /\ mx = Fin b /\ (0 < a)%Q /\ (a < b)%Q /\ (2 <= n)%Z.
Proof.
  unfold valid_config. rewrite !andb_true_iff.
  intros [[[[Hmn Hmx] H0] Hlt] Hn].
  destruct mn as [a| | |]; try discriminate.
  destruct mx as [b| | |]; try discriminate.
  exists a, b. apply ltb_Fin in H0, Hlt. apply Z.leb_le in Hn. auto.
Qed.

(** ** The period grid *)

Lemma linspace_finite (a b : Q) (m : nat) :
  (1 <= m)%nat -> (a < b)%Q ->
  linspace (Fin a) (Fin b) (Z.of_nat (S m))
  = Ok (map (fun i => Fin (grid_point a b m i)) (seq 0 m) ++ [Fin b]).
Proof.
  intros Hm Hab. unfold linspace.
  assert (Hdiv : (Z.of_nat (S m) - 1 = Z.of_nat m)%Z) by lia.
  destruct (Z.ltb_spec (Z.of_nat (S m)) 0); [lia|].
  rewrite Hdiv.
  destruct (Z.ltb_spec 0 (Z.of_nat m)); [|lia].
  destruct (Z.ltb_spec 1 (Z.of_nat (S m))); [|lia].
  cbn [F64.sub F64.neg F64.add]. rewrite div_of_Z_pos by assumption.
  assert (Hd : (0 < inject_Z (Z.of_nat m))%Q).
  { change 0%Q with (inject_Z 0). rewrite <- Zlt_Qlt. assumption. }
  assert (Hstep : (0 < (b + - a) / inject_Z (Z.of_nat m))%Q).
  { apply Qlt_shift_div_l; [exact Hd | lra]. }
  destruct (Fin ((b + - a) / inject_Z (Z.of_nat m)) =? F64.zero)%f64 eqn:Hz.
  { apply eqb_Fin in Hz. lra. }
  unfold arange. rewrite Nat2Z.id, !map_map.
  rewrite seq_S, map_app. cbn [map Nat.add].
  unfold set_last.
  destruct (map _ (seq 0 m) ++ [_]) eqn:Hl.
  { now apply app_eq_nil in Hl as [_ Hl]. }
  rewrite <- Hl, removelast_last. reflexivity.
Qed.

Lemma grid_point_last (a b : Q) (m : nat) :
  (1 <= m)%nat -> (grid_point a b m m == b)%Q.
Proof.
  intros Hm. unfold grid_point.
  assert (Hd : (0 < inject_Z (Z.of_nat m))%Q).
  { change 0%Q with (inject_Z 0). rewrite <- Zlt_Qlt. lia. }
  field. intros H. rewrite H in Hd. now apply Qlt_irrefl in Hd.
Qed.

Lemma grid_point_between (a b : Q) (m i : nat) :
  (1 <= m)%nat -> (i <= m)%nat -> (a < b)%Q ->
  (a <= grid_point a b m i <= b)%Q.
Proof.
  intros Hm Hi Hab.
  assert (Hd : (0 < inject_Z (Z.of_nat m))%Q).
  { change 0%Q with (inject_Z 0). rewrite <- Zlt_Qlt. lia. }
  assert (Hi0 : (0 <= inject_Z (Z.of_nat i))%Q).
  { change 0%Q with (inject_Z 0). rewrite <- Zle_Qle. lia. }
  assert (Him : (inject_Z (Z.of_nat i) <= inject_Z (Z.of_nat m))%Q).
  { rewrite <- Zle_Qle. lia. }
  assert (Hstep : (0 < (b + - a) / inject_Z (Z.of_nat m))%Q).
  { apply Qlt_shift_div_l; [exact Hd | lra]. }
  rewrite <- (grid_point_last a b m Hm) at 3. unfold grid_point.
  set (s := ((b + - a) / inject_Z (Z.of_nat m))%Q) in *.
  split.
  - assert (0 <= inject_Z (Z.of_nat i) * s)%Q
      by (apply Qmult_le_0_compat; lra). lra.
  - assert (inject_Z (Z.of_nat i) * s <= inject_Z (Z.of_nat m) * s)%Q
      by (apply Qmult_le_compat_r; lra). lra.
Qed.

(** An infinite [stop] is outside the valid configurations: the step is
    infinite and the first point, [0 * inf + start], is [nan]. *)
Remark linspace_infinite_stop :
  linspace (Fin (1 # 2)) PInf 3 = Ok [NaN; PInf; PInf].
Proof. reflexivity. Qed.

(** The grid as a whole: [n] points, the [i]-th one the [i]-th grid point,
    the last one [mx] itself. *)
Lemma linspace_valid mn mx n :
  valid_config mn mx n = true ->
  exists a b m,
    mn = Fin a /\ mx = Fin b /\ (0 < a)%Q /\ (a < b)%Q /\ (1 <= m)%nat
    /\ n = Z.of_nat (S m)
    /\ linspace mn mx n
       = Ok (map (fun i => Fin (grid_point a b m i)) (seq 0 m) ++ [Fin b]).
Proof.
  intros Hv. apply valid_config_inv in Hv as (a & b & -> & -> & Ha & Hab & Hn).
  exists a, b, (Z.to_nat n - 1)%nat.
  assert (Hm : n = Z.of_nat (S (Z.to_nat n - 1))) by lia.
  repeat split; trivial; try lia.
  rewrite Hm at 1. apply linspace_finite; [lia | exact Hab].
Qed.

Lemma nth_error_grid (a b : Q) (m i : nat) :
  let ps := map (fun i => Fin (grid_point a b m i)) (seq 0 m) ++ [Fin b] in
  ((i < m)%nat -> nth_error ps i = Some (Fin (grid_point a b m i)))
  /\ nth_error ps m = Some (Fin b)
  /\ List.length ps = S m.
Proof.
  cbn zeta. repeat split.
  - intros Hi. rewrite nth_error_app1 by now rewrite length_map, length_seq.
    rewrite nth_error_map, nth_error_seq.
    destruct (Nat.ltb_spec i m); [reflexivity | lia].
  - rewrite nth_error_app2 by now rewrite length_map, length_seq.
    rewrite length_map, length_seq, Nat.sub_diag. reflexivity.
  - rewrite length_app, length_map, length_seq. cbn. lia.
Qed.

Lemma grid_elements (a b : Q) (m i : nat) (p : float64) :
  (1 <= m)%nat -> (a < b)%Q ->
  nth_error (map (fun i => Fin (grid_point a b m i)) (seq 0 m) ++ [Fin b]) i
  = Some p ->
  exists q, p = Fin q /\ (a <= q <= b)%Q.
Proof.
  intros Hm Hab Hp.
  destruct (nth_error_grid a b m i) as (Hlt & Hlast & Hlen).
  destruct (Nat.lt_trichotomy i m) as [Hi | [-> | Hi]].
  - rewrite (Hlt Hi) in Hp. injection Hp as <-. eexists. split; [reflexivity|].
    apply grid_point_between; trivial; lia.
  - rewrite Hlast in Hp. injection Hp as <-. exists b. split; [reflexivity|lra].
  - assert (Hnone : nth_error
      (map (fun i => Fin (grid_point a b m i)) (seq 0 m) ++ [Fin b]) i = None)
      by (apply nth_error_None; lia).
    congruence.
Qed.

Lemma length_set_last (y : list float64) (v : float64) :
  List.length (set_last y v) = List.length y.
Proof.
  destruct y as [|x y]; [reflexivity|]. unfold set_last.
  rewrite length_app, removelast_firstn_len, length_firstn. cbn. lia.
Qed.

Lemma length_arange (num : Z) : List.length (arange num) = Z.to_nat num.
Proof. unfold arange. now rewrite length_map, length_seq. Qed.

(** [linspace] refuses a negative count and nothing else. *)
Lemma linspace_total (start stop : float64) (num : Z) :
  (0 <= num)%Z ->
  exists ps, linspace start stop num = Ok ps /\ List.length ps = Z.to_nat num.
Proof.
  intros Hn. unfold linspace. destruct (Z.ltb_spec num 0); [lia|].
  eexists. split; [reflexivity|].
  assert (Hlen : forall g h : float64 -> float64,
             List.length (map g (map h (arange num))) = Z.to_nat num)
    by (intros; now rewrite !length_map, length_arange).
  destruct (1 <? num)%Z; rewrite ?length_set_last;
    destruct (0 <? num - 1)%Z;
    try destruct (F64.eqb _ _); apply Hlen.
Qed.

(** ** The binary64 grid *)

Lemma length_set_last64 (y : list spec_float) (v : spec_float) :
  List.length (set_last64 y v) = List.length y.
Proof.
  destruct y as [|x y]; [reflexivity|]. unfold set_last64.
  rewrite length_app, removelast_firstn_len, length_firstn. cbn. lia.
Qed.

(** Rounding does not touch the shape of the grid: any two values and a
    count of at least two give that many points, the last one [stop]
    itself. *)
Lemma linspace64_length_last (start stop : spec_float) (num : Z) :
  (2 <= num)%Z ->
  exists ps,
    linspace64 start stop num = Ok ps
    /\ List.length ps = Z.to_nat num
    /\ nth_error ps (Z.to_nat num - 1) = Some stop.
Proof.
  intros Hn. unfold linspace64.
  destruct (Z.ltb_spec num 0); [lia|].
  destruct (Z.ltb_spec 1 num); [|lia].
  eexists. split; [reflexivity|].
  match goal with
  | |- context [set_last64 ?l stop] => set (y := l)
  end.
  assert (Hlen : List.length y = Z.to_nat num).
  { unfold y, arange64. destruct (0 <? num - 1)%Z;
      try destruct (B64.eqb _ _);
      now rewrite !length_map, length_seq. }
  split; [now rewrite length_set_last64|].
  destruct y as [|x y'] eqn:Hy; [cbn in Hlen; lia|].
  unfold set_last64. rewrite nth_error_app2;
    rewrite removelast_firstn_len, length_firstn, Hlen.
  - replace (Z.to_nat num - 1 - Nat.min (Nat.pred (Z.to_nat num))
                                  (Z.to_nat num))%nat with 0%nat by lia.
    reflexivity.
  - lia.
Qed.

(** The first point too is [start] itself as soon as the step comes out
    finite and not zero: [0 * step] is a zero and a zero plus a finite
    non-zero [start] is [start]. *)
Lemma linspace64_first (start stop : spec_float) (num : Z) s m e :
  (2 <= num)%Z ->
  start = S754_finite s m e ->
  B64.isfinite (B64.div (B64.sub stop start) (B64.of_Z (num - 1))) = true ->
  B64.eqb (B64.div (B64.sub stop start) (B64.of_Z (num - 1))) B64.zero
  = false ->
  exists ps,
    linspace64 start stop num = Ok ps /\ nth_error ps 0 = Some start.
Proof.
  intros Hn Hstart Hfin Hnz. unfold linspace64.
  destruct (Z.ltb_spec num 0); [lia|].
  destruct (Z.ltb_spec 1 num); [|lia].
  destruct (Z.ltb_spec 0 (num - 1)); [|lia].
  rewrite Hnz. eexists. split; [reflexivity|].
  unfold arange64.
  destruct (Z.to_nat num) as [|[|k]] eqn:Hk; try lia.
  cbn [seq map set_last64 removelast app nth_error].
  change (B64.of_Z (Z.of_nat 0)) with (S754_zero false).
  destruct (B64.div (B64.sub stop start) (B64.of_Z (num - 1)))
    as [sz|si| |ss ms es]; try discriminate.
  subst start. reflexivity.
Qed.

(** ** Duration guesses *)

Lemma length_period_to_duration_guess (periods : list float64)
  (fraction : float64) :
  List.length (period_to_duration_guess periods fraction)
  = List.length periods.
Proof.
  unfold period_to_duration_guess, np_clip. now rewrite !length_map.
Qed.

Lemma clip_is_clamp (x : float64) (lo hi : Q) :
  (lo <= hi)%Q ->
  F64.minimum (F64.maximum x (Fin lo)) (Fin hi) = clamp x (Fin lo) (Fin hi).
Proof.
  intros Hle. destruct x as [q| | |]; unfold clamp, F64.maximum, F64.minimum,
    F64.geb, F64.gtb, F64.leb, F64.ltb; cbn [F64.isnan F64.cmp].
  - destruct (Qcompare_spec lo q), (Qcompare_spec q lo),
      (Qcompare_spec hi q); cbn [F64.isnan F64.cmp]; try lra;
      destruct (Qcompare_spec q hi), (Qcompare_spec lo hi); try lra;
      reflexivity.
  - reflexivity.
  - destruct (Qcompare_spec lo hi); try lra; reflexivity.
  - reflexivity.
Qed.

Lemma min_le_max_duration : (5 # 1000 <= 5 # 10)%Q.
Proof. lra. Qed.

Lemma nth_error_period_to_duration_guess periods fraction i :
  nth_error (period_to_duration_guess periods fraction) i
  = option_map (fun p => clamp (fraction * p)%f64 min_duration max_duration)
      (nth_error periods i).
Proof.
  unfold period_to_duration_guess, np_clip.
  rewrite map_map, nth_error_map.
  destruct (nth_error periods i); [cbn|reflexivity].
  unfold min_duration, max_duration.
  now rewrite clip_is_clamp by apply min_le_max_duration.
Qed.

Lemma mul_Fin_same (f : float64) (q q' : Q) :
  (q == q')%Q -> (f * Fin q == f * Fin q')%f64.
Proof.
  intros Hq. destruct f as [x| | |]; cbn; unfold F64.sgn; rewrite ?Hq;
    try reflexivity; destruct (q' ?= 0)%Q; exact I.
Qed.

Lemma cmp_same_l (x x' y : float64) :
  (x == x')%f64 -> F64.cmp x y = F64.cmp x' y.
Proof.
  destruct x, x'; cbn; try contradiction; try reflexivity.
  intros Hq. destruct y; cbn; try reflexivity. now rewrite Hq.
Qed.

Lemma clamp_below (x x' lo hi : float64) :
  (x == x')%f64 -> (x' <? lo)%f64 = true -> clamp x lo hi = lo.
Proof.
  intros Hs Hlt. unfold clamp, F64.ltb in *.
  now rewrite (cmp_same_l x x' lo Hs), Hlt.
Qed.

Lemma clamp_above (x : float64) (lo hi : Q) :
  (lo <= hi)%Q -> (x >? Fin hi)%f64 = true -> clamp x (Fin lo) (Fin hi) = Fin hi.
Proof.
  intros Hle Hgt. unfold clamp. rewrite Hgt.
  destruct (x <? Fin lo)%f64 eqn:Hlt; [|reflexivity].
  destruct x as [q| | |]; try discriminate.
  apply ltb_Fin in Hlt. apply ltb_Fin in Hgt. lra.
Qed.

Lemma clamp_range (x : float64) (lo hi : Q) :
  (lo <= hi)%Q -> F64.isnan x = false ->
  (Fin lo <=? clamp x (Fin lo) (Fin hi))%f64 = true
  /\ (clamp x (Fin lo) (Fin hi) <=? Fin hi)%f64 = true.
Proof.
  intros Hle Hnan. unfold clamp.
  destruct (x <? Fin lo)%f64 eqn:Hlt.
  { split; apply leb_Fin; lra. }
  destruct (x >? Fin hi)%f64 eqn:Hgt.
  { split; apply leb_Fin; lra. }
  destruct x as [q| | |]; try discriminate.
  unfold F64.gtb, F64.ltb, F64.leb in *. cbn [F64.cmp] in *.
  destruct (Qcompare_spec q lo), (Qcompare_spec hi q); try discriminate;
    destruct (Qcompare_spec lo q), (Qcompare_spec q hi); try lra; auto.
Qed.

(** ** The grids of [run_bls] under a valid configuration *)

Lemma run_bls_grids_valid mn mx n f :
  valid_config mn mx n = true ->
  exists a b m,
    mn = Fin a /\ mx = Fin b /\ (0 < a)%Q /\ (a < b)%Q /\ (1 <= m)%nat
    /\ n = Z.of_nat (S m)
    /\ run_bls_grids mn mx n f
       = Ok (map (fun i => Fin (grid_point a b m i)) (seq 0 m) ++ [Fin b],
             period_to_duration_guess
               (map (fun i => Fin (grid_point a b m i)) (seq 0 m) ++ [Fin b])
               f).
Proof.
  intros Hv.
  destruct (linspace_valid mn mx n Hv)
    as (a & b & m & Hmn & Hmx & Ha & Hab & Hm & Hn & Hlin).
  exists a, b, m. repeat split; trivial.
  unfold run_bls_grids. now rewrite Hlin.
Qed.


(** C2.  Under a valid configuration the durations are as many as the
    periods and index-aligned with them: the duration at index [i] is
    [clamp(fraction * periods[i], 0.005, 0.5)].  When
    [fraction * min_period < 0.005] the first duration is [0.005], and when
    [fraction * max_period > 0.5] the last one is [0.5]. *)
Theorem duration_guess_is_clamp mn mx n f :
  valid_config mn mx n = true ->
  exists periods durations,
    run_bls_grids mn mx n f = Ok (periods, durations)
    /\ durations = period_to_duration_guess periods f
    /\ List.length durations = List.length periods
    /\ (forall i p,
          nth_error periods i = Some p ->
          nth_error durations i
          = Some (clamp (f * p)%f64 min_duration max_duration))
    /\ ((f * mn <? min_duration)%f64 = true ->
        nth_error durations 0 = Some min_duration)
    /\ ((f * mx >? max_duration)%f64 = true ->
        nth_error durations (Z.to_nat n - 1) = Some max_duration).
Proof.
  intros Hv.
  destruct (run_bls_grids_valid mn mx n f Hv)
    as (a & b & m & -> & -> & Ha & Hab & Hm & -> & Hgrid).
  set (ps := map (fun i => Fin (grid_point a b m i)) (seq 0 m) ++ [Fin b])
    in *.
  destruct (nth_error_grid a b m 0) as (H0 & Hlast & _). fold ps in H0, Hlast.
  exists ps, (period_to_duration_guess ps f).
  split; [exact Hgrid|]. split; [reflexivity|].
  split; [apply length_period_to_duration_guess|].
  split.
  { intros i p Hp. now rewrite nth_error_period_to_duration_guess, Hp. }
  split.
  - intros Hlt. rewrite nth_error_period_to_duration_guess, H0 by lia.
    cbn [option_map]. f_equal. apply clamp_below with (x' := (f * Fin a)%f64);
      [|exact Hlt].
    apply mul_Fin_same. unfold grid_point. cbn [Z.of_nat inject_Z]. ring.
  - intros Hgt. rewrite Nat2Z.id. replace (S m - 1)%nat with m by lia.
    rewrite nth_error_period_to_duration_guess, Hlast. cbn [option_map].
    f_equal. apply clamp_above; [apply min_le_max_duration | exact Hgt].
Qed.

(** C7 (as the code has it).  Under a valid configuration and a positive
    [duration_fraction], every duration lies in [[0.005, 0.5]].  A duration
    is at most its period whenever that period is at least [0.005] and the
    fraction is at most [1]; nothing keeps it below a shorter period. *)
Theorem durations_within_clamp_range mn mx n f :
  valid_config mn mx n = true ->
  (F64.zero <? f)%f64 = true ->
  exists periods durations,
    run_bls_grids mn mx n f = Ok (periods, durations)
    /\ forall i p d,
        nth_error periods i = Some p -> nth_error durations i = Some d ->
        (min_duration <=? d)%f64 = true
        /\ (d <=? max_duration)%f64 = true
        /\ ((min_duration <=? p)%f64 = true -> (f <=? Fin 1)%f64 = true ->
            (d <=? p)%f64 = true).
Proof.
  intros Hv Hf.
  destruct (run_bls_grids_valid mn mx n f Hv)
    as (a & b & m & -> & -> & Ha & Hab & Hm & -> & Hgrid).
  set (ps := map (fun i => Fin (grid_point a b m i)) (seq 0 m) ++ [Fin b])
    in *.
  exists ps, (period_to_duration_guess ps f). split; [exact Hgrid|].
  intros i p d Hp Hd.
  destruct (grid_elements a b m i p Hm Hab Hp) as (q & -> & Hq).
  rewrite nth_error_period_to_duration_guess, Hp in Hd.
  cbn [option_map] in Hd. injection Hd as <-.
  assert (Hnan : F64.isnan (f * Fin q)%f64 = false).
  { destruct f as [x| | |]; try discriminate; [reflexivity|].
    cbn. unfold F64.sgn. destruct (Qcompare_spec q 0); try lra; reflexivity. }
  destruct (clamp_range (f * Fin q)%f64 _ _ min_le_max_duration Hnan)
    as [Hlo Hhi].
  split; [exact Hlo|]. split; [exact Hhi|].
  intros Hp_lo Hf1. destruct f as [x| | |]; try discriminate.
  apply leb_Fin in Hp_lo, Hf1. apply ltb_Fin in Hf.
  assert (Hprod : (0 <= (1 - x) * q)%Q) by (apply Qmult_le_0_compat; lra).
  assert (Hxq : (x * q <= q)%Q) by lra.
  cbn [F64.mul]. unfold clamp, min_duration, max_duration.
  destruct (Fin (x * q) <? Fin (5 # 1000))%f64 eqn:Hlt.
  { apply leb_Fin. exact Hp_lo. }
  destruct (Fin (x * q) >? Fin (5 # 10))%f64 eqn:Hgt.
  { apply ltb_Fin in Hgt. apply leb_Fin. lra. }
  apply leb_Fin. exact Hxq.
Qed.

(** C8 (as the code has it).  The grid construction validates neither the
    range nor the count: for every pair of periods and every non-negative
    count it returns that many periods and their duration guesses.  Only a
    negative count fails, with the ValueError of [linspace]; [run_bls] hands
    that error to its caller after the grid log, without calling the
    primitive. *)
Theorem run_bls_grids_unvalidated (bls : bls_primitive) lc mn mx n f tr :
  ((0 <= n)%Z ->
   exists periods,
     run_bls_grids mn mx n f
     = Ok (periods, period_to_duration_guess periods f)
     /\ List.length periods = Z.to_nat n)
  /\ ((n < 0)%Z ->
      exists e,
        run_bls_grids mn mx n f = Raise e
        /\ e = ValueError ("Number of samples, " ++ string_of_Z n
                             ++ ", must be non-negative.")%string
        /\ forall t y,
            run_bls_filter lc = (t, y) -> (10 <= List.length t)%nat ->
            run_bls bls lc mn mx n f tr = (Raise e, tr ++ [grid_log mn mx n])).
Proof.
  split.
  - intros Hn. destruct (linspace_total mn mx n Hn) as (ps & Hlin & Hlen).
    exists ps. unfold run_bls_grids. rewrite Hlin. now split.
  - intros Hn. eexists.
    assert (Hgrid : run_bls_grids mn mx n f
                    = Raise (ValueError ("Number of samples, " ++ string_of_Z n
                                           ++ ", must be non-negative.")%string)).
    { unfold run_bls_grids, linspace.
      destruct (Z.ltb_spec n 0); [reflexivity|lia]. }
    split; [exact Hgrid|]. split; [reflexivity|].
    intros t y Hf Hlen. rewrite (run_bls_steps bls _ _ _ _ _ _ _ _ Hf), Hgrid.
    destruct (Z.ltb_spec (Z.of_nat (List.length t)) 10); [lia|reflexivity].
Qed.

(** ** Order on the values that are not [nan] *)

Lemma leb_refl (x : float64) : F64.isnan x = false -> (x <=? x)%f64 = true.
Proof.
  destruct x as [q| | |]; try reflexivity; [|discriminate].
  intros _. apply leb_Fin. lra.
Qed.

Lemma not_leb_ltb (x y : float64) :
  F64.isnan x = false -> F64.isnan y = false ->
  (x <=? y)%f64 = false -> (y <? x)%f64 = true.
Proof.
  destruct x as [p| | |], y as [q| | |]; try discriminate; try reflexivity.
  unfold F64.leb, F64.ltb. cbn [F64.cmp]. intros _ _.
  destruct (Qcompare_spec p q), (Qcompare_spec q p); try discriminate;
    try reflexivity; lra.
Qed.

Lemma ltb_leb (x y : float64) : (x <? y)%f64 = true -> (x <=? y)%f64 = true.
Proof.
  unfold F64.ltb, F64.leb. destruct (F64.cmp x y) as [[]|]; congruence.
Qed.

Lemma leb_ltb_trans (x y z : float64) :
  (x <=? y)%f64 = true -> (y <? z)%f64 = true -> (x <? z)%f64 = true.
Proof.
  destruct x as [p| | |], y as [q| | |], z as [r| | |];
    try discriminate; try reflexivity.
  rewrite leb_Fin, !ltb_Fin. lra.
Qed.

Lemma ltb_trans (x y z : float64) :
  (x <? y)%f64 = true -> (y <? z)%f64 = true -> (x <? z)%f64 = true.
Proof. intros Hxy. apply leb_ltb_trans, ltb_leb, Hxy. Qed.

(** ** [argmax] on an array without [nan] *)

(** The scan either keeps its candidate, which then bounds the rest, or ends
    on a later entry that exceeds the candidate, bounds the rest and is
    strictly above everything scanned before it. *)
Lemma argmax_scan_spec (ip : list float64) :
  forall mp max_ind i,
    F64.isnan mp = false -> no_nan ip ->
    let k := argmax_scan mp max_ind i ip in
    (k = max_ind /\ Forall (fun y => (y <=? mp)%f64 = true) ip)
    \/ exists j x,
        k = (i + j)%nat /\ nth_error ip j = Some x /\ (mp <? x)%f64 = true
        /\ Forall (fun y => (y <=? x)%f64 = true) ip
        /\ forall j' y, (j' < j)%nat -> nth_error ip j' = Some y ->
                        (y <? x)%f64 = true.
Proof.
  induction ip as [|x ip IH]; intros mp max_ind i Hmp Hip; cbn zeta.
  { left. split; [reflexivity | constructor]. }
  inversion Hip as [|? ? Hx Hip']; subst. cbn [argmax_scan].
  destruct (x <=? mp)%f64 eqn:Hle; cbn [negb]; [|rewrite Hx].
  - destruct (IH mp max_ind (S i) Hmp Hip')
      as [[Hk Hall] | (j & x' & Hk & Hj & Hgt & Hall & Hbefore)].
    + left. split; [exact Hk | now constructor].
    + right. exists (S j), x'. repeat split; trivial.
      * rewrite Hk. lia.
      * constructor; [|exact Hall].
        apply ltb_leb, (leb_ltb_trans _ _ _ Hle Hgt).
      * intros [|j'] y Hlt Hy; cbn in Hy.
        -- injection Hy as <-. apply (leb_ltb_trans _ _ _ Hle Hgt).
        -- apply (Hbefore j' y); [lia | exact Hy].
  - assert (Hgt0 : (mp <? x)%f64 = true) by now apply not_leb_ltb.
    destruct (IH x i (S i) Hx Hip')
      as [[Hk Hall] | (j & x' & Hk & Hj & Hgt & Hall & Hbefore)].
    + right. exists 0%nat, x. repeat split; trivial.
      * rewrite Hk. lia.
      * constructor; [now apply leb_refl | exact Hall].
      * intros j' y Hlt. lia.
    + right. exists (S j), x'. repeat split; trivial.
      * rewrite Hk. lia.
      * apply (ltb_trans _ _ _ Hgt0 Hgt).
      * constructor; [now apply ltb_leb | exact Hall].
      * intros [|j'] y Hlt Hy; cbn in Hy.
        -- now injection Hy as <-.
        -- apply (Hbefore j' y); [lia | exact Hy].
Qed.

Lemma argmax_no_nan (a : list float64) :
  a <> [] -> no_nan a -> exists k w, argmax a = Ok k /\ first_max_at a k w.
Proof.
  destruct a as [|mp ip]; [congruence|]. intros _ Ha.
  inversion Ha as [|? ? Hmp Hip]; subst. cbn [argmax]. rewrite Hmp.
  destruct (argmax_scan_spec ip mp 0%nat 1%nat Hmp Hip)
    as [[Hk Hall] | (j & x & Hk & Hj & Hgt & Hall & Hbefore)].
  - exists 0%nat, mp. rewrite Hk. split; [reflexivity|].
    split; [reflexivity|]. split.
    + constructor; [now apply leb_refl | exact Hall].
    + intros j y Hlt. lia.
  - exists (S j), x. rewrite Hk. split; [reflexivity|].
    split; [exact Hj|]. split.
    + constructor; [now apply ltb_leb | exact Hall].
    + intros [|j'] y Hlt Hy; cbn in Hy.
      * now injection Hy as <-.
      * apply (Hbefore j' y); [lia | exact Hy].
Qed.

(** ** [nanargmax] and [pick_best] *)

Lemma no_nan_replaced (a : list float64) : no_nan (map nan_to_ninf a).
Proof.
  apply Forall_forall. intros x Hx. apply in_map_iff in Hx as (y & <- & _).
  now destruct y.
Qed.

Lemma forallb_mask (a : list float64) :
  forallb (fun b => b) (map F64.isnan a) = forallb F64.isnan a.
Proof.
  induction a as [|x a IH]; cbn; [reflexivity | now rewrite IH].
Qed.

Lemma nanargmax_empty :
  nanargmax [] = Raise (ValueError "attempt to get argmax of an empty sequence").
Proof. reflexivity. Qed.

Lemma nanargmax_all_nan (a : list float64) :
  a <> [] -> forallb F64.isnan a = true ->
  nanargmax a = Raise (ValueError "All-NaN slice encountered").
Proof.
  intros Hne Hall. unfold nanargmax, replace_nan.
  rewrite forallb_mask, Hall, length_map.
  destruct a; [congruence | reflexivity].
Qed.

Lemma nanargmax_some_number (a : list float64) :
  (exists w, In w a /\ F64.isnan w = false) ->
  nanargmax a = argmax (map nan_to_ninf a).
Proof.
  intros (w & Hin & Hw). unfold nanargmax, replace_nan.
  rewrite forallb_mask.
  assert (Hall : forallb F64.isnan a = false).
  { destruct (forallb F64.isnan a) eqn:Hall; [|reflexivity].
    rewrite forallb_forall in Hall. specialize (Hall w Hin). congruence. }
  rewrite Hall, andb_false_r. reflexivity.
Qed.

Lemma nanargmax_in_range (a : list float64) :
  (exists w, In w a /\ F64.isnan w = false) ->
  exists k w',
    nanargmax a = Ok k /\ first_max_at (map nan_to_ninf a) k w'.
Proof.
  intros Hsome. rewrite (nanargmax_some_number a Hsome).
  apply argmax_no_nan; [|apply no_nan_replaced].
  destruct Hsome as (w & Hin & _). destruct a; [contradiction | discriminate].
Qed.

Lemma pick_best_at (periods power : list float64) k bp bw :
  nanargmax power = Ok k ->
  nth_error periods k = Some bp -> nth_error power k = Some bw ->
  pick_best periods power = Ok (bp, bw).
Proof.
  intros Hk Hp Hw. unfold pick_best, getitem. rewrite Hk. cbn [res_bind].
  rewrite Hp. cbn [res_bind]. rewrite Hw. reflexivity.
Qed.

Lemma nth_error_same_length {A B} (l : list A) (l' : list B) k x :
  List.length l' = List.length l -> nth_error l k = Some x ->
  exists y, nth_error l' k = Some y.
Proof.
  intros Hlen Hx.
  assert (Hk : (k < List.length l)%nat)
    by (apply nth_error_Some; congruence).
  destruct (nth_error l' k) as [y|] eqn:Hy; [now exists y|].
  apply nth_error_None in Hy. lia.
Qed.

(** C3 (as the code has it).  For equal-length sequences with at least one
    finite power, [pick_best] returns the period and the power at one index;
    the power there is not [nan], no power that is a number exceeds it, and
    every number before that index is strictly below it (first index among
    ties).  Only [nan] is ignored: an infinite power takes part in the
    comparison.  [pick_best([1,2,3], [0.5,0.9,0.9])] is [(2, 0.9)]. *)
Theorem pick_best_first_maximum :
  (forall periods power,
      List.length periods = List.length power ->
      (exists w, In w power /\ F64.isfinite w = true) ->
      exists k best_period best_power,
        pick_best periods power = Ok (best_period, best_power)
        /\ nth_error periods k = Some best_period
        /\ nth_error power k = Some best_power
        /\ F64.isnan best_power = false
        /\ (forall j w, nth_error power j = Some w -> F64.isnan w = false ->
                        (w <=? best_power)%f64 = true)
        /\ (forall j w, (j < k)%nat -> nth_error power j = Some w ->
                        F64.isnan w = false -> (w <? best_power)%f64 = true))
  /\ pick_best [Fin 1; Fin 2; Fin 3] [Fin (5 # 10); Fin (9 # 10); Fin (9 # 10)]
     = Ok (Fin 2, Fin (9 # 10)).
Proof.
  split; [|reflexivity].
  intros periods power Hlen (w0 & Hin0 & Hfin0).
  assert (Hsome : exists w, In w power /\ F64.isnan w = false)
    by (exists w0; split; [exact Hin0 | now destruct w0]).
  destruct (nanargmax_in_range power Hsome)
    as (k & w' & Hk & Hat & Hmax & Hfirst).
  rewrite nth_error_map in Hat.
  destruct (nth_error power k) as [bw|] eqn:Hbw; [|discriminate].
  cbn [option_map] in Hat. injection Hat as <-.
  destruct (nth_error_same_length power periods k bw Hlen Hbw) as [bp Hbp].
  rewrite Forall_forall in Hmax.
  assert (Hnan : F64.isnan bw = false).
  { destruct w0 as [q| | |]; try discriminate.
    specialize (Hmax (Fin q) (in_map nan_to_ninf _ _ Hin0)).
    destruct bw; try reflexivity. discriminate. }
  assert (Hbw' : nan_to_ninf bw = bw) by (unfold nan_to_ninf; now rewrite Hnan).
  rewrite Hbw' in Hmax, Hfirst.
  assert (Hrepl : forall j w, nth_error power j = Some w ->
                              F64.isnan w = false ->
                              nth_error (map nan_to_ninf power) j = Some w).
  { intros j w Hj Hw. rewrite nth_error_map, Hj. cbn. unfold nan_to_ninf.
    now rewrite Hw. }
  exists k, bp, bw. split; [now apply pick_best_at with k|].
  repeat split; trivial.
  - intros j w Hj Hw. apply Hmax. eapply nth_error_In, Hrepl; eassumption.
  - intros j w Hlt Hj Hw. apply (Hfirst j w Hlt). now apply Hrepl.
Qed.

(** C5 (as the code has it).  [pick_best] raises on empty sequences, and it
    raises when the power sequence is not empty and every power is [nan]; no
    fallback candidate is returned in either case.  As soon as one power is
    not [nan], be it infinite, equal-length sequences give a candidate. *)
Theorem pick_best_failures :
  pick_best [] []
  = Raise (ValueError "attempt to get argmax of an empty sequence")
  /\ (forall periods power,
         power <> [] -> forallb F64.isnan power = true ->
         pick_best periods power
         = Raise (ValueError "All-NaN slice encountered"))
  /\ (forall periods power,
         List.length periods = List.length power ->
         (exists w, In w power /\ F64.isnan w = false) ->
         exists k best_period best_power,
           pick_best periods power = Ok (best_period, best_power)
           /\ nth_error periods k = Some best_period
           /\ nth_error power k = Some best_power).
Proof.
  split; [reflexivity|]. split.
  - intros periods power Hne Hall. unfold pick_best.
    now rewrite (nanargmax_all_nan power Hne Hall).
  - intros periods power Hlen Hsome.
    destruct (nanargmax_in_range power Hsome) as (k & w' & Hk & Hat & _).
    rewrite nth_error_map in Hat.
    destruct (nth_error power k) as [bw|] eqn:Hbw; [|discriminate].
    destruct (nth_error_same_length power periods k bw Hlen Hbw) as [bp Hbp].
    exists k, bp, bw. split; [now apply pick_best_at with k | now split].
Qed.

(** * The properties on concrete runs *)


(** With periods from 0.05 to 20 and the default fraction, the first
    duration is the floor 0.005 and the last one the ceiling 0.5. *)
Lemma duration_guess_is_clamp_witness :
  valid_config (Fin (5 # 100)) (Fin 20) 3 = true
  /\ exists periods durations,
      run_bls_grids (Fin (5 # 100)) (Fin 20) 3 default_fraction
      = Ok (periods, durations)
      /\ List.length durations = List.length periods
      /\ nth_error durations 0 = Some min_duration
      /\ nth_error durations 2 = Some max_duration.
Proof.
  split; [reflexivity|].
  destruct (duration_guess_is_clamp (Fin (5 # 100)) (Fin 20) 3
              default_fraction eq_refl)
    as (ps & ds & Hgrid & _ & Hlen & _ & Hlo & Hhi).
  exists ps, ds. repeat split; trivial.
  - apply Hlo. reflexivity.
  - apply Hhi. reflexivity.
Defined.

(** A periodogram with a [nan] and a tie: the first of the tied maxima. *)
Lemma pick_best_first_maximum_witness :
  exists k best_period best_power,
    pick_best [Fin 1; Fin 2; Fin 3; Fin 4]
      [NaN; Fin (9 # 10); Fin (5 # 10); Fin (9 # 10)]
    = Ok (best_period, best_power)
    /\ nth_error [Fin 1; Fin 2; Fin 3; Fin 4] k = Some best_period
    /\ nth_error [NaN; Fin (9 # 10); Fin (5 # 10); Fin (9 # 10)] k
       = Some best_power
    /\ F64.isnan best_power = false.
Proof.
  destruct (proj1 pick_best_first_maximum
              [Fin 1; Fin 2; Fin 3; Fin 4]
              [NaN; Fin (9 # 10); Fin (5 # 10); Fin (9 # 10)] eq_refl)
    as (k & bp & bw & Hbest & Hp & Hw & Hnan & _).
  - exists (Fin (9 # 10)). split; [cbn; auto | reflexivity].
  - exists k, bp, bw. repeat split; assumption.
Defined.

(** Nine finite samples: [run_bls] and [main] raise, nothing is written. *)
Lemma run_bls_insufficient_data_witness :
  (List.length (filter both_finite (samples lc9)) < 10)%nat
  /\ run_bls bls_flat lc9 (Fin (1 # 2)) (Fin 10) 3 default_fraction []
     = (Raise not_enough_points, [])
  /\ main bls_flat read_lc9 String.append (args_default "bls_results.csv") []
     = (Raise not_enough_points, []).
Proof.
  assert (Hlen : (List.length (filter both_finite (samples lc9)) < 10)%nat)
    by (cbn; lia).
  destruct (run_bls_insufficient_data bls_flat read_lc9 String.append lc9
              (Fin (1 # 2)) (Fin 10) 3 default_fraction [] Hlen)
    as [Hrun Hmain].
  split; [exact Hlen|]. split; [exact Hrun|].
  apply (Hmain (args_default "bls_results.csv")). reflexivity.
Defined.

(** An all-[nan] periodogram is refused; [-inf] next to a [nan] is not. *)
Lemma pick_best_failures_witness :
  pick_best [Fin 1; Fin 2] [NaN; NaN]
  = Raise (ValueError "All-NaN slice encountered")
  /\ exists k best_period best_power,
      pick_best [Fin 1; Fin 2] [NaN; NInf] = Ok (best_period, best_power)
      /\ nth_error [Fin 1; Fin 2] k = Some best_period
      /\ nth_error [NaN; NInf] k = Some best_power.
Proof.
  destruct pick_best_failures as (_ & Hall & Hsome). split.
  - apply Hall; [discriminate | reflexivity].
  - apply Hsome; [reflexivity|]. exists NInf. split; [cbn; auto | reflexivity].
Defined.

(** A short minimum period with the default fraction: durations in range. *)
Lemma durations_within_clamp_range_witness :
  valid_config (Fin (1 # 1000)) (Fin 10) 2 = true
  /\ (F64.zero <? default_fraction)%f64 = true
  /\ exists periods durations,
      run_bls_grids (Fin (1 # 1000)) (Fin 10) 2 default_fraction
      = Ok (periods, durations)
      /\ forall i p d,
          nth_error periods i = Some p -> nth_error durations i = Some d ->
          (min_duration <=? d)%f64 = true
          /\ (d <=? max_duration)%f64 = true
          /\ ((min_duration <=? p)%f64 = true ->
              (default_fraction <=? Fin 1)%f64 = true ->
              (d <=? p)%f64 = true).
Proof.
  split; [reflexivity|]. split; [reflexivity|].
  exact (durations_within_clamp_range (Fin (1 # 1000)) (Fin 10) 2
           default_fraction eq_refl eq_refl).
Defined.

(** A reversed range with a single point is accepted; a count of -1 is not. *)
Lemma run_bls_grids_unvalidated_witness :
  (exists periods,
      run_bls_grids (Fin 10) (Fin 5) 1 default_fraction
      = Ok (periods, period_to_duration_guess periods default_fraction)
      /\ List.length periods = 1%nat)
  /\ run_bls_grids (Fin (1 # 2)) (Fin 10) (-1) default_fraction
     = Raise (ValueError "Number of samples, -1, must be non-negative.").
Proof.
  split.
  - apply (proj1 (run_bls_grids_unvalidated bls_flat lc12 (Fin 10) (Fin 5) 1
                    default_fraction [])). lia.
  - destruct (proj2 (run_bls_grids_unvalidated bls_flat lc12 (Fin (1 # 2))
                       (Fin 10) (-1) default_fraction []))
      as (e & Hgrid & -> & _); [lia | exact Hgrid].
Defined.

(** The failing primitive on eleven valid samples: its error comes back. *)
Lemma run_bls_primitive_failure_witness :
  run_bls bls_broken lc12 (Fin (1 # 2)) (Fin 10) 3 default_fraction []
  = (Raise (ValueError
       "The maximum transit duration must be shorter than the minimum period"),
     snd (run_bls bls_broken lc12 (Fin (1 # 2)) (Fin 10) 3 default_fraction
            []))
  /\ List.length
       (filter is_bls_call
          (snd (run_bls bls_broken lc12 (Fin (1 # 2)) (Fin 10) 3
                  default_fraction [])))
     = 1%nat.
Proof.
  edestruct (run_bls_primitive_failure bls_broken lc12 (Fin (1 # 2)) (Fin 10)
               3 default_fraction []) as [Hrun Hcalls].
  - vm_compute. reflexivity.
  - vm_compute. lia.
  - vm_compute. reflexivity.
  - reflexivity.
  - split; [|exact Hcalls]. rewrite Hrun. reflexivity.
Defined.

(** * Where the code departs from the specification *)


(** C3.  With powers [0.5, +inf, 0.9], one of which is finite, [pick_best]
    answers the infinite entry at index 1: it is not ignored, and the maximum
    of the finite entries [(3, 0.9)] is not what comes back. *)
Lemma pick_best_keeps_infinite_power :
  (exists w, In w [Fin (5 # 10); PInf; Fin (9 # 10)]
             /\ F64.isfinite w = true)
  /\ pick_best [Fin 1; Fin 2; Fin 3] [Fin (5 # 10); PInf; Fin (9 # 10)]
     = Ok (Fin 2, PInf)
  /\ F64.isfinite PInf = false
  /\ pick_best [Fin 1; Fin 2; Fin 3] [Fin (5 # 10); PInf; Fin (9 # 10)]
     <> Ok (Fin 3, Fin (9 # 10)).
Proof.
  split; [exists (Fin (5 # 10)); split; [cbn; auto | reflexivity]|].
  split; [reflexivity|]. split; [reflexivity|].
  vm_compute. discriminate.
Qed.

(** C5.  Every power of [+inf, -inf] is non-finite, and [pick_best] does not
    fail: it returns the first period with power [+inf]. *)
Lemma pick_best_accepts_all_infinite :
  forallb (fun w => negb (F64.isfinite w)) [PInf; NInf] = true
  /\ pick_best [Fin 1; Fin 2] [PInf; NInf] = Ok (Fin 1, PInf).
Proof. split; reflexivity. Qed.

(** C7.  The configuration 0.001 to 10 in two points is valid, and its first
    duration, the floor 0.005, is greater than its period 0.001. *)
Lemma duration_exceeds_short_period :
  valid_config (Fin (1 # 1000)) (Fin 10) 2 = true
  /\ exists periods durations p d,
      run_bls_grids (Fin (1 # 1000)) (Fin 10) 2 default_fraction
      = Ok (periods, durations)
      /\ nth_error periods 0 = Some p /\ nth_error durations 0 = Some d
      /\ (p =? Fin (1 # 1000))%f64 = true
      /\ d = min_duration
      /\ (d >? p)%f64 = true.
Proof.
  split; [reflexivity|].
  do 4 eexists. vm_compute. repeat split; reflexivity.
Qed.

(** C8.  A reversed range, a negative minimum period and a single grid point
    all go through the grid construction without an error. *)
Lemma run_bls_grids_accepts_malformed_config :
  (Fin 5 <=? Fin 10)%f64 = true
  /\ (exists periods durations,
         run_bls_grids (Fin 10) (Fin 5) 3 default_fraction
         = Ok (periods, durations) /\ List.length periods = 3%nat)
  /\ (Fin (-1) <=? F64.zero)%f64 = true
  /\ (exists periods durations,
         run_bls_grids (Fin (-1)) (Fin 10) 3 default_fraction
         = Ok (periods, durations) /\ List.length periods = 3%nat)
  /\ (1 <? 2)%Z = true
  /\ (exists periods durations,
         run_bls_grids (Fin (1 # 2)) (Fin 10) 1 default_fraction
         = Ok (periods, durations) /\ List.length periods = 1%nat).
Proof.
  repeat split; try reflexivity; do 2 eexists; vm_compute; split; reflexivity.
Qed.

(** C9.  The failing primitive raises a ValueError; [run_bls] raises that
    very exception, which is not a SearchPrimitiveError raised from it. *)
Lemma run_bls_failure_not_wrapped :
  let e := ValueError
    "The maximum transit duration must be shorter than the minimum period" in
  (forall t y periods durations, bls_broken t y periods durations = Raise e)
  /\ fst (run_bls bls_broken lc12 (Fin (1 # 2)) (Fin 10) 3 default_fraction [])
     = Raise e
  /\ ~ (exists e',
          fst (run_bls bls_broken lc12 (Fin (1 # 2)) (Fin 10) 3
                 default_fraction [])
          = Raise e'
          /\ wraps "SearchPrimitiveError" e e').
Proof.
  cbn zeta. split; [reflexivity|]. split; [reflexivity|].
  intros (e' & Hraise & ctx & Hwrap).
  vm_compute in Hraise. injection Hraise as <-. discriminate Hwrap.
Qed.

(** * Further properties of the search stage *)

(** ** What [run_bls] does to the outside world *)

Lemma run_bls_grids_inv mn mx n f ps ds :
  run_bls_grids mn mx n f = Ok (ps, ds) ->
  linspace mn mx n = Ok ps /\ ds = period_to_duration_guess ps f.
Proof.
  unfold run_bls_grids. destruct (linspace mn mx n) as [ps0|e]; cbn;
    [|discriminate].
  intros H. injection H as <- <-. now split.
Qed.

(** The events that one call of [run_bls] adds: nothing, the grid log, or
    the grid log and one call of the primitive. *)
Lemma run_bls_added_events (bls : bls_primitive) lc mn mx n f tr :
  exists evs,
    snd (run_bls bls lc mn mx n f tr) = tr ++ evs
    /\ (evs = []
        \/ evs = [grid_log mn mx n]
        \/ exists ps ds,
            run_bls_grids mn mx n f = Ok (ps, ds)
            /\ (10 <= List.length (fst (run_bls_filter lc)))%nat
            /\ evs = [grid_log mn mx n;
                      EvBlsPower (fst (run_bls_filter lc))
                        (snd (run_bls_filter lc)) ps ds]).
Proof.
  destruct (run_bls_filter lc) as [t y] eqn:Hf.
  rewrite (run_bls_steps bls _ _ _ _ _ _ _ _ Hf). cbn [fst snd].
  destruct (Z.ltb_spec (Z.of_nat (List.length t)) 10) as [Hlt | Hge].
  { exists []. rewrite app_nil_r. auto. }
  destruct (run_bls_grids mn mx n f) as [[ps ds]|e].
  - exists [grid_log mn mx n; EvBlsPower t y ps ds]. split.
    + destruct (bls t y ps ds); reflexivity.
    + right. right. exists ps, ds. repeat split. lia.
  - exists [grid_log mn mx n]. auto.
Qed.

(** X1.  Whatever the light curve and the configuration, the primitive is
    only ever called on the samples with both components finite, at least
    ten of them, the two columns of equal length, together with the grid of
    [linspace] and its duration guesses. *)
Theorem run_bls_primitive_sees_valid_samples (bls : bls_primitive)
  lc mn mx n f t y ps ds :
  In (EvBlsPower t y ps ds) (snd (run_bls bls lc mn mx n f [])) ->
  combine t y = filter both_finite (samples lc)
  /\ List.length t = List.length y
  /\ (10 <= List.length t)%nat
  /\ Forall (fun v => F64.isfinite v = true) t
  /\ Forall (fun v => F64.isfinite v = true) y
  /\ linspace mn mx n = Ok ps
  /\ ds = period_to_duration_guess ps f.
Proof.
  intros Hin.
  destruct (run_bls_added_events bls lc mn mx n f [])
    as (evs & Htr & [-> | [-> | (ps0 & ds0 & Hgrid & Hlen & ->)]]);
    rewrite Htr in Hin; cbn [app In] in Hin.
  - contradiction.
  - destruct Hin as [Hin | []]. discriminate Hin.
  - destruct Hin as [Hin | [Hin | []]]; [discriminate Hin|].
    rewrite run_bls_filter_columns in Hin, Hlen. cbn [fst snd] in Hin, Hlen.
    injection Hin as <- <- <- <-.
    apply run_bls_grids_inv in Hgrid as [Hlin ->].
    set (kept := filter both_finite (samples lc)) in *.
    assert (Hfin : Forall (fun s => F64.isfinite (fst s) = true
                                    /\ F64.isfinite (snd s) = true) kept).
    { apply Forall_forall. intros s Hs. apply filter_In in Hs as [_ Hs].
      unfold both_finite in Hs. now apply andb_true_iff in Hs. }
    repeat split; trivial.
    + apply combine_columns.
    + now rewrite !length_map.
    + apply Forall_map. eapply Forall_impl; [|exact Hfin]. now intros s [? ?].
    + apply Forall_map. eapply Forall_impl; [|exact Hfin]. now intros s [? ?].
Qed.

(** X2.  One call of [run_bls] only appends to the trace; it calls the
    primitive at most once and never writes a table or a summary. *)
Theorem run_bls_effects_bounded (bls : bls_primitive) lc mn mx n f tr :
  exists evs,
    snd (run_bls bls lc mn mx n f tr) = tr ++ evs
    /\ (List.length (filter is_bls_call evs) <= 1)%nat
    /\ filter is_persistence evs = [].
Proof.
  destruct (run_bls_added_events bls lc mn mx n f tr)
    as (evs & Htr & [-> | [-> | (ps0 & ds0 & _ & _ & ->)]]);
    eexists; (split; [exact Htr|]); cbn; split; (lia || reflexivity).
Qed.

(** ** [main] step by step *)

Lemma run_bls_Ok_inv (bls : bls_primitive) lc mn mx n f tr ps ds r tr1 :
  run_bls bls lc mn mx n f tr = (Ok (ps, ds, r), tr1) ->
  run_bls_grids mn mx n f = Ok (ps, ds)
  /\ bls (fst (run_bls_filter lc)) (snd (run_bls_filter lc)) ps ds = Ok r
  /\ (10 <= List.length (fst (run_bls_filter lc)))%nat
  /\ tr1 = tr ++ [grid_log mn mx n;
                  EvBlsPower (fst (run_bls_filter lc))
                    (snd (run_bls_filter lc)) ps ds].
Proof.
  destruct (run_bls_filter lc) as [t y] eqn:Hf.
  rewrite (run_bls_steps bls _ _ _ _ _ _ _ _ Hf). cbn [fst snd].
  destruct (Z.ltb_spec (Z.of_nat (List.length t)) 10) as [Hlt | Hge];
    [discriminate|].
  destruct (run_bls_grids mn mx n f) as [[ps0 ds0]|e]; [|discriminate].
  destruct (bls t y ps0 ds0) as [r0|e] eqn:Hbls; [|discriminate].
  intros H. injection H as <- <- <- <-. repeat split; trivial. lia.
Qed.

Lemma main_steps (bls : bls_primitive) read ws args tr :
  main bls read ws args tr
  = match read (input args) with
    | Raise e => (Raise e, tr)
    | Ok lc =>
        match run_bls bls lc (min_period args) (max_period args)
                (n_periods args) default_fraction tr with
        | (Raise e, tr1) => (Raise e, tr1)
        | (Ok (ps, ds, r), tr1) =>
            match pick_best ps (power r) with
            | Raise e => (Raise e, tr1 ++ [EvToCsv (out args) ps (power r)])
            | Ok (bp, bw) =>
                (Ok tt,
                 tr1 ++ [EvToCsv (out args) ps (power r);
                         best_log bp bw;
                         EvWriteJson (ws (out args) ".summary.json")
                           [("best_period", bp); ("best_power", bw)]])
            end
        end
    end.
Proof.
  unfold main, bind, lift. destruct (read (input args)) as [lc|e];
    [|reflexivity].
  destruct (run_bls bls lc _ _ _ _ tr) as [[[[ps ds] r]|e] tr1];
    [|reflexivity].
  unfold save_bls_results, write_json, log_info, emit.
  destruct (pick_best ps (power r)) as [[bp bw]|e]; [|reflexivity].
  rewrite <- !app_assoc. reflexivity.
Qed.

Lemma pick_best_Ok_inv periods power bp bw :
  pick_best periods power = Ok (bp, bw) ->
  exists k,
    nanargmax power = Ok k
    /\ nth_error periods k = Some bp /\ nth_error power k = Some bw.
Proof.
  unfold pick_best, getitem.
  destruct (nanargmax power) as [k|e]; cbn [res_bind]; [|discriminate].
  destruct (nth_error periods k) as [p|] eqn:Hp; cbn [res_bind];
    [|discriminate].
  destruct (nth_error power k) as [w|] eqn:Hw; cbn [res_bind];
    [|discriminate].
  intros H. injection H as <- <-. exists k. auto.
Qed.

(** X3.  When [main] returns normally, the light curve was read, the
    primitive answered a result on its filtered samples, the grid of
    [linspace] and the duration guesses, and two artifacts were written, the
    table first: the table holds that grid and the powers of that result,
    and the summary holds the period and the power of one and the same row
    of that table. *)
Theorem main_summary_matches_table (bls : bls_primitive) read ws args :
  fst (main bls read ws args []) = Ok tt ->
  exists lc ps r bp bw k,
    read (input args) = Ok lc
    /\ linspace (min_period args) (max_period args) (n_periods args) = Ok ps
    /\ bls (fst (run_bls_filter lc)) (snd (run_bls_filter lc)) ps
         (period_to_duration_guess ps default_fraction)
       = Ok r
    /\ filter is_persistence (snd (main bls read ws args []))
       = [EvToCsv (out args) ps (power r);
          EvWriteJson (ws (out args) ".summary.json")
            [("best_period", bp); ("best_power", bw)]]
    /\ nth_error ps k = Some bp
    /\ nth_error (power r) k = Some bw.
Proof.
  rewrite main_steps.
  destruct (read (input args)) as [lc|e]; [|discriminate].
  destruct (run_bls bls lc _ _ _ _ []) as [[[[ps ds] r]|e] tr1] eqn:Hrun;
    [|discriminate].
  destruct (pick_best ps (power r)) as [[bp bw]|e] eqn:Hbest; [|discriminate].
  intros _. cbn [fst snd].
  apply run_bls_Ok_inv in Hrun as (Hgrid & Hbls & _ & ->).
  apply run_bls_grids_inv in Hgrid as [Hlin ->].
  apply pick_best_Ok_inv in Hbest as (k & _ & Hp & Hw).
  exists lc, ps, r, bp, bw, k. repeat split; trivial.
Qed.

(** X4.  When the primitive answers a periodogram that is not empty and
    holds [nan] only, [main] raises the all-NaN error of [pick_best] after it
    has written the table: the table is there, the summary is not. *)
Theorem main_table_without_summary (bls : bls_primitive) read ws args
  lc t y ps ds r :
  read (input args) = Ok lc ->
  run_bls_filter lc = (t, y) ->
  (10 <= List.length t)%nat ->
  run_bls_grids (min_period args) (max_period args) (n_periods args)
    default_fraction = Ok (ps, ds) ->
  bls t y ps ds = Ok r ->
  power r <> [] ->
  forallb F64.isnan (power r) = true ->
  main bls read ws args []
  = (Raise (ValueError "All-NaN slice encountered"),
     [grid_log (min_period args) (max_period args) (n_periods args);
      EvBlsPower t y ps ds;
      EvToCsv (out args) ps (power r)]).
Proof.
  intros Hread Hf Hlen Hgrid Hbls Hne Hnan.
  rewrite main_steps, Hread, (run_bls_steps bls _ _ _ _ _ _ _ _ Hf), Hgrid,
    Hbls.
  destruct (Z.ltb_spec (Z.of_nat (List.length t)) 10); [lia|].
  unfold pick_best. rewrite (nanargmax_all_nan _ Hne Hnan). reflexivity.
Qed.

(** X5.  On every run [main] calls the primitive at most once.  A run that
    returns normally has written the table and then the summary; a run that
    raises has written nothing or the table alone, never the summary. *)
Theorem main_persistence_shape (bls : bls_primitive) read ws args :
  (List.length (filter is_bls_call (snd (main bls read ws args []))) <= 1)%nat
  /\ match fst (main bls read ws args []) with
     | Ok _ =>
         exists ps pw payload,
           filter is_persistence (snd (main bls read ws args []))
           = [EvToCsv (out args) ps pw;
              EvWriteJson (ws (out args) ".summary.json") payload]
     | Raise _ =>
         filter is_persistence (snd (main bls read ws args [])) = []
         \/ exists ps pw,
             filter is_persistence (snd (main bls read ws args []))
             = [EvToCsv (out args) ps pw]
     end.
Proof.
  rewrite main_steps.
  destruct (read (input args)) as [lc|e]; [|cbn; split; [lia | now left]].
  destruct (run_bls_added_events bls lc (min_period args) (max_period args)
              (n_periods args) default_fraction []) as (evs & Htr & Hevs).
  cbn [app] in Htr.
  assert (Hcalls : (List.length (filter is_bls_call evs) <= 1)%nat
                   /\ filter is_persistence evs = []).
  { destruct Hevs as [-> | [-> | (ps0 & ds0 & _ & _ & ->)]]; cbn;
      split; (lia || reflexivity). }
  destruct Hcalls as [Hcalls Hnone].
  destruct (run_bls bls lc _ _ _ _ []) as [[[[ps ds] r]|e] tr1];
    cbn [snd] in Htr; subst tr1.
  - destruct (pick_best ps (power r)) as [[bp bw]|e]; cbn [fst snd];
      rewrite !filter_app, Hnone; cbn; rewrite app_nil_r.
    + split; [exact Hcalls|]. do 3 eexists. reflexivity.
    + split; [exact Hcalls|]. right. now exists ps, (power r).
  - cbn [fst snd]. split; [exact Hcalls | now left].
Qed.

(** ** Durations for arbitrary periods *)

Lemma clamp_nan (x lo hi : float64) :
  F64.isnan lo = false -> F64.isnan hi = false ->
  F64.isnan (clamp x lo hi) = F64.isnan x.
Proof.
  intros Hlo Hhi. unfold clamp.
  destruct (x <? lo)%f64 eqn:Hlt.
  { rewrite Hlo. now destruct x. }
  destruct (x >? hi)%f64 eqn:Hgt; [|reflexivity].
  rewrite Hhi. now destruct x, hi.
Qed.

(** X8.  For any periods and any fraction, each duration guess is either
    [nan] or within [[0.005, 0.5]]; it is [nan] exactly when the product
    [fraction * period] is [nan], which the clipping leaves as it is. *)
Theorem duration_guess_nan_or_in_range periods f i p :
  nth_error periods i = Some p ->
  exists d,
    nth_error (period_to_duration_guess periods f) i = Some d
    /\ F64.isnan d = F64.isnan (f * p)%f64
    /\ (F64.isnan d = false ->
        (min_duration <=? d)%f64 = true /\ (d <=? max_duration)%f64 = true).
Proof.
  intros Hp. rewrite nth_error_period_to_duration_guess, Hp. cbn [option_map].
  eexists. split; [reflexivity|].
  assert (Hnan : F64.isnan (clamp (f * p)%f64 min_duration max_duration)
                 = F64.isnan (f * p)%f64) by now apply clamp_nan.
  split; [exact Hnan|]. rewrite Hnan. intros Hx.
  apply clamp_range; [apply min_le_max_duration | exact Hx].
Qed.

(** X9.  Under a valid configuration whose shortest period is at most 0.5
    and whose longest period times the fraction reaches 0.5, the last
    duration guess is 0.5 and is not shorter than the first period. *)
Theorem longest_duration_reaches_shortest_period mn mx n f :
  valid_config mn mx n = true ->
  (mn <=? max_duration)%f64 = true ->
  (max_duration <=? f * mx)%f64 = true ->
  exists periods durations p0 dl,
    run_bls_grids mn mx n f = Ok (periods, durations)
    /\ nth_error periods 0 = Some p0
    /\ nth_error durations (Z.to_nat n - 1) = Some dl
    /\ (dl =? max_duration)%f64 = true
    /\ (p0 <=? dl)%f64 = true.
Proof.
  intros Hv Hmn Hmx.
  destruct (run_bls_grids_valid mn mx n f Hv)
    as (a & b & m & -> & -> & Ha & Hab & Hm & -> & Hgrid).
  destruct (nth_error_grid a b m 0) as (H0 & Hlast & _).
  rewrite Nat2Z.id. replace (S m - 1)%nat with m by lia.
  do 4 eexists. split; [exact Hgrid|]. split; [apply H0; lia|].
  split.
  { rewrite nth_error_period_to_duration_guess, Hlast. reflexivity. }
  apply leb_Fin in Hmn.
  assert (H0a : (grid_point a b m 0 == a)%Q)
    by (unfold grid_point; cbn [Z.of_nat inject_Z]; ring).
  unfold clamp, min_duration, max_duration, F64.gtb, F64.ltb in *.
  destruct (f * Fin b)%f64 as [v| | |]; try discriminate.
  - apply leb_Fin in Hmx. cbn [F64.cmp].
    destruct (Qcompare_spec v (5 # 1000)); try lra;
      destruct (Qcompare_spec (5 # 10) v); try lra;
      split; try (apply eqb_Fin; lra); apply leb_Fin; lra.
  - cbn [F64.cmp]. split; [apply eqb_Fin; lra | apply leb_Fin; lra].
Qed.

(** ** [pick_best] on sequences of unequal length and on degenerate powers *)

Lemma forallb_false_witness {A} (p : A -> bool) (l : list A) :
  forallb p l = false -> exists x, In x l /\ p x = false.
Proof.
  induction l as [|x l IH]; cbn; [discriminate|].
  destruct (p x) eqn:Hx; cbn.
  - intros H. destruct (IH H) as (y & Hy & Hpy). exists y. auto.
  - intros _. exists x. auto.
Qed.

Lemma nanargmax_Ok_lt (a : list float64) (k : nat) :
  nanargmax a = Ok k -> (k < List.length a)%nat.
Proof.
  intros Hk. destruct a as [|x a]; [discriminate|].
  destruct (forallb F64.isnan (x :: a)) eqn:Hall.
  { rewrite nanargmax_all_nan in Hk; [discriminate | discriminate | exact Hall]. }
  apply forallb_false_witness in Hall.
  destruct (nanargmax_in_range (x :: a) Hall) as (k' & w & Hk' & Hat & _).
  rewrite Hk in Hk'. injection Hk' as <-.
  rewrite <- (length_map nan_to_ninf). apply nth_error_Some. congruence.
Qed.

Lemma nanargmax_error_is_ValueError (a : list float64) (e : exn) :
  nanargmax a = Raise e -> exists msg, e = ValueError msg.
Proof.
  unfold nanargmax, replace_nan.
  destruct (negb _ && _); [intros H; injection H as <-; eauto|].
  destruct a as [|x a]; cbn; [intros H; injection H as <-; eauto|].
  discriminate.
Qed.

(** X10.  Periods beyond the length of the power sequence are never looked
    at: appending any periods to a period sequence that is at least as long
    as the powers changes neither the result nor the error. *)
Theorem pick_best_extra_periods_ignored periods extra power :
  (List.length power <= List.length periods)%nat ->
  pick_best (periods ++ extra) power = pick_best periods power.
Proof.
  intros Hlen. unfold pick_best.
  destruct (nanargmax power) as [k|e] eqn:Hk; [|reflexivity].
  apply nanargmax_Ok_lt in Hk. cbn [res_bind]. unfold getitem.
  rewrite nth_error_app1 by lia.
  destruct (nth_error periods k) eqn:Hp; [reflexivity|].
  apply nth_error_None in Hp. lia.
Qed.

(** X11.  [pick_best] raises an IndexError exactly when the index chosen in
    the powers lies beyond the end of the periods; every other exception of
    [pick_best] is the ValueError that [nanargmax] raised. *)
Theorem pick_best_index_error_iff periods power :
  ((exists msg, pick_best periods power = Raise (IndexError msg))
   <-> exists k, nanargmax power = Ok k /\ (List.length periods <= k)%nat)
  /\ (forall e,
         pick_best periods power = Raise e ->
         (exists msg, e = IndexError msg)
         \/ (nanargmax power = Raise e /\ exists msg, e = ValueError msg)).
Proof.
  unfold pick_best. split; [split|].
  - intros (msg & H). destruct (nanargmax power) as [k|e] eqn:Hk.
    + exists k. split; [reflexivity|]. cbn [res_bind] in H. unfold getitem in H.
      destruct (nth_error periods k) eqn:Hp; [|now apply nth_error_None].
      cbn [res_bind] in H. apply nanargmax_Ok_lt in Hk.
      destruct (nth_error power k) eqn:Hw; [discriminate|].
      apply nth_error_None in Hw. lia.
    + cbn [res_bind] in H. injection H as ->.
      apply nanargmax_error_is_ValueError in Hk as (m & Hm). discriminate Hm.
  - intros (k & -> & Hlen). cbn [res_bind]. unfold getitem.
    apply nth_error_None in Hlen. rewrite Hlen. cbn [res_bind]. eauto.
  - intros e H. destruct (nanargmax power) as [k|e0] eqn:Hk.
    + left. cbn [res_bind] in H. unfold getitem in H.
      destruct (nth_error periods k); cbn [res_bind] in H.
      * destruct (nth_error power k); cbn [res_bind] in H;
          [discriminate | injection H as <-; eauto].
      * injection H as <-. eauto.
    + right. cbn [res_bind] in H. injection H as <-.
      split; [reflexivity|]. now apply nanargmax_error_is_ValueError in Hk.
Qed.

Lemma argmax_scan_keep (ip : list float64) (mp : float64) (max_ind i : nat) :
  Forall (fun x => (x <=? mp)%f64 = true) ip ->
  argmax_scan mp max_ind i ip = max_ind.
Proof.
  revert i. induction ip as [|x ip IH]; intros i Hall; [reflexivity|].
  inversion Hall as [|? ? Hx Hip]; subst. cbn [argmax_scan].
  rewrite Hx. cbn [negb]. now apply IH.
Qed.

(** X12.  When every power is [nan] or [-inf] and at least one is [-inf],
    [pick_best] answers the first period with the first power, be that
    power [-inf] or [nan]. *)
Theorem pick_best_only_nan_and_minus_inf p0 periods w0 power :
  Forall (fun w => F64.isnan w = true \/ w = NInf) (w0 :: power) ->
  In NInf (w0 :: power) ->
  pick_best (p0 :: periods) (w0 :: power) = Ok (p0, w0).
Proof.
  intros Hall Hin.
  assert (Hsome : exists w, In w (w0 :: power) /\ F64.isnan w = false)
    by (exists NInf; split; [exact Hin | reflexivity]).
  assert (Hkeys : Forall (fun x => (x <=? NInf)%f64 = true)
                    (map nan_to_ninf (w0 :: power))).
  { apply Forall_map. eapply Forall_impl; [|exact Hall].
    intros w [Hw | ->]; [|reflexivity]. unfold nan_to_ninf. now rewrite Hw. }
  assert (Hk : nanargmax (w0 :: power) = Ok 0%nat).
  { rewrite (nanargmax_some_number _ Hsome). cbn [map argmax].
    cbn [map] in Hkeys. inversion Hkeys as [|? ? H0 Hrest]; subst.
    assert (E0 : nan_to_ninf w0 = NInf).
    { inversion Hall as [|? ? [Hw | ->] _]; subst; [|reflexivity].
      unfold nan_to_ninf. now rewrite Hw. }
    rewrite E0. cbn [F64.isnan]. now rewrite argmax_scan_keep. }
  now apply pick_best_at with 0%nat.
Qed.

(** ** [pick_best] row by row *)

Lemma row_key_not_nan (z : float64 * float64) : F64.isnan (row_key z) = false.
Proof. unfold row_key, nan_to_ninf. now destruct (snd z). Qed.

(** The index scan and the row scan walk together. *)
Lemma argmax_scan_rows (rows : list (float64 * float64)) :
  forall pre best max_ind,
    nth_error pre max_ind = Some best ->
    nth_error (pre ++ rows)
      (argmax_scan (row_key best) max_ind (List.length pre)
         (map row_key rows))
    = Some (best_of best rows).
Proof.
  induction rows as [|z rows IH]; intros pre best max_ind Hbest.
  { cbn. rewrite app_nil_r. exact Hbest. }
  cbn [map argmax_scan best_of fold_left].
  replace (pre ++ z :: rows) with ((pre ++ [z]) ++ rows)
    by now rewrite <- app_assoc.
  replace (S (List.length pre)) with (List.length (pre ++ [z]))
    by (rewrite length_app; cbn; lia).
  destruct (row_key z <=? row_key best)%f64; cbn [negb].
  - apply IH. rewrite nth_error_app1; [exact Hbest|].
    apply nth_error_Some. congruence.
  - rewrite row_key_not_nan.
    replace (List.length pre) with (List.length pre + 0)%nat at 1 by lia.
    apply IH. rewrite nth_error_app2 by lia.
    now rewrite Nat.add_0_r, Nat.sub_diag.
Qed.

Lemma pick_best_rows (z0 : float64 * float64) rows :
  (exists z, In z (z0 :: rows) /\ F64.isnan (snd z) = false) ->
  pick_best (map fst (z0 :: rows)) (map snd (z0 :: rows))
  = Ok (best_of z0 rows).
Proof.
  intros (z & Hin & Hz).
  assert (Hsome : exists w, In w (map snd (z0 :: rows))
                            /\ F64.isnan w = false)
    by (exists (snd z); split; [now apply in_map | exact Hz]).
  pose proof (argmax_scan_rows rows [z0] z0 0%nat eq_refl) as Hscan.
  cbn [List.length app] in Hscan.
  assert (Hk : nanargmax (map snd (z0 :: rows))
               = Ok (argmax_scan (row_key z0) 0 1 (map row_key rows))).
  { rewrite (nanargmax_some_number _ Hsome), map_map.
    cbn [map argmax]. fold (row_key z0). rewrite row_key_not_nan.
    reflexivity. }
  destruct (best_of z0 rows) as [bp bw] eqn:Hb.
  apply pick_best_at with (1 := Hk); rewrite nth_error_map, Hscan;
    reflexivity.
Qed.

Lemma row_key_above (z : float64 * float64) :
  (NInf <? snd z)%f64 = true -> (NInf <? row_key z)%f64 = true.
Proof. unfold row_key, nan_to_ninf. now destruct (snd z). Qed.

Lemma row_key_nan (z : float64 * float64) :
  power_is_number z = false -> row_key z = NInf.
Proof.
  unfold power_is_number, row_key, nan_to_ninf.
  now destruct (F64.isnan (snd z)).
Qed.

Lemma leb_NInf_key (z b : float64 * float64) :
  row_key z = NInf -> (row_key z <=? row_key b)%f64 = true.
Proof.
  intros ->. pose proof (row_key_not_nan b). now destruct (row_key b).
Qed.

(** Dropping rows without a number from the tail does not change the best. *)
Lemma best_of_filter_tail rows :
  forall best, best_of best (filter power_is_number rows) = best_of best rows.
Proof.
  induction rows as [|z rows IH]; intros best; [reflexivity|].
  cbn [filter]. destruct (power_is_number z) eqn:Hz.
  - cbn [best_of fold_left]. apply IH.
  - rewrite IH. cbn [best_of fold_left].
    now rewrite (leb_NInf_key z best (row_key_nan z Hz)).
Qed.

(** Two candidates of key [-inf] are both overtaken by the first row above
    [-inf]. *)
Lemma best_of_from_minus_inf rows :
  forall b b',
    row_key b = NInf -> row_key b' = NInf ->
    (exists z, In z rows /\ (NInf <? row_key z)%f64 = true) ->
    best_of b rows = best_of b' rows.
Proof.
  induction rows as [|z rows IH]; intros b b' Hb Hb' (z1 & Hin & Hz1).
  { contradiction. }
  cbn [best_of fold_left]. rewrite Hb, Hb'.
  destruct (row_key z <=? NInf)%f64 eqn:Hle; cbn [negb]; [|reflexivity].
  apply IH; trivial. destruct Hin as [-> | Hin]; [|eauto].
  exfalso. pose proof (row_key_not_nan z1).
  destruct (row_key z1); discriminate.
Qed.

Lemma best_of_dropped_head rows :
  forall z0,
    power_is_number z0 = false ->
    (exists z, In z rows /\ (NInf <? row_key z)%f64 = true) ->
    match filter power_is_number rows with
    | [] => False
    | z1 :: rows' => best_of z1 rows' = best_of z0 rows
    end.
Proof.
  induction rows as [|z rows IH]; intros z0 Hz0 (z1 & Hin & Hz1).
  { contradiction. }
  pose proof (row_key_nan z0 Hz0) as Hk0.
  cbn [filter]. destruct (power_is_number z) eqn:Hz.
  - rewrite best_of_filter_tail. cbn [best_of fold_left]. rewrite Hk0.
    destruct (row_key z <=? NInf)%f64 eqn:Hle; cbn [negb]; [|reflexivity].
    assert (Hkz : row_key z = NInf).
    { pose proof (row_key_not_nan z). destruct (row_key z); try discriminate.
      reflexivity. }
    apply best_of_from_minus_inf; trivial.
    destruct Hin as [-> | Hin]; [|eauto].
    rewrite Hkz in Hz1. discriminate.
  - pose proof (row_key_nan z Hz) as Hkz.
    cbn [best_of fold_left]. rewrite (leb_NInf_key z z0 Hkz). cbn [negb].
    apply IH; trivial. destruct Hin as [-> | Hin]; [|eauto].
    rewrite Hkz in Hz1. discriminate.
Qed.

Lemma pick_best_rows_filter (rows : list (float64 * float64)) :
  (exists z, In z rows /\ (NInf <? snd z)%f64 = true) ->
  pick_best (map fst (filter power_is_number rows))
    (map snd (filter power_is_number rows))
  = pick_best (map fst rows) (map snd rows).
Proof.
  intros (z & Hin & Hw).
  assert (Hnum : F64.isnan (snd z) = false) by now destruct (snd z).
  destruct rows as [|z0 rows]; [contradiction|].
  rewrite (pick_best_rows z0 rows) by (exists z; now split).
  cbn [filter]. destruct (power_is_number z0) eqn:Hz0.
  - rewrite pick_best_rows.
    + now rewrite best_of_filter_tail.
    + exists z0. split; [now left|]. unfold power_is_number in Hz0.
      now destruct (F64.isnan (snd z0)).
  - assert (Hin' : In z rows).
    { destruct Hin as [-> | Hin]; [|exact Hin].
      unfold power_is_number in Hz0. rewrite Hnum in Hz0. discriminate. }
    pose proof (best_of_dropped_head rows z0 Hz0
                  (ex_intro _ z (conj Hin' (row_key_above z Hw)))) as Hdrop.
    destruct (filter power_is_number rows) as [|z1 rows'] eqn:Hfil;
      [contradiction|].
    rewrite pick_best_rows; [now rewrite Hdrop|].
    exists z1. split; [now left|].
    assert (Hz1 : In z1 (filter power_is_number rows))
      by (rewrite Hfil; now left).
    apply filter_In in Hz1 as [_ Hz1]. unfold power_is_number in Hz1.
    now destruct (F64.isnan (snd z1)).
Qed.

Lemma columns_of_combine {A B} (l : list A) (l' : list B) :
  List.length l = List.length l' ->
  map fst (combine l l') = l /\ map snd (combine l l') = l'.
Proof.
  revert l'. induction l as [|x l IH]; intros [|y l'] Hlen;
    try discriminate; [now split|].
  injection Hlen as Hlen. destruct (IH l' Hlen) as [Hf Hs].
  cbn. now rewrite Hf, Hs.
Qed.

(** X13.  Rows whose power is [nan] can be removed beforehand: as long as
    one power is above [-inf], [pick_best] on the remaining rows returns the
    same period and power as on all the rows. *)
Theorem pick_best_nan_rows_removable periods power :
  List.length periods = List.length power ->
  (exists w, In w power /\ (NInf <? w)%f64 = true) ->
  let kept := filter power_is_number (combine periods power) in
  pick_best (map fst kept) (map snd kept) = pick_best periods power.
Proof.
  intros Hlen (w & Hin & Hw). cbn zeta.
  destruct (columns_of_combine periods power Hlen) as [Hp Hq].
  rewrite pick_best_rows_filter; [now rewrite Hp, Hq|].
  rewrite <- Hq in Hin. apply in_map_iff in Hin as (z & <- & Hin).
  now exists z.
Qed.

(** * Loading a light curve (preprocess.py) *)

(** ** Substrings *)

Lemma str_append_assoc (a b c : string) :
  ((a ++ b) ++ c = a ++ (b ++ c))%string.
Proof. induction a as [|x a IH]; cbn; [reflexivity | now rewrite IH]. Qed.

Lemma starts_with_iff (sub s : string) :
  starts_with sub s = true <-> exists post, s = (sub ++ post)%string.
Proof.
  revert s. induction sub as [|a sub IH]; intros s; cbn.
  { split; [intros _; now exists s | reflexivity]. }
  destruct s as [|b s].
  { split; [discriminate | intros (post & H); discriminate]. }
  rewrite andb_true_iff, Ascii.eqb_eq, IH. split.
  - intros [-> (post & ->)]. now exists post.
  - intros (post & H). injection H as -> ->. split; [reflexivity|].
    now exists post.
Qed.

Lemma contains_iff (sub s : string) :
  contains sub s = true
  <-> exists pre post, s = (pre ++ sub ++ post)%string.
Proof.
  induction s as [|b s IH]; cbn [contains]; rewrite orb_true_iff.
  - rewrite starts_with_iff. split.
    + intros [(post & H) | H]; [|discriminate]. now exists ""%string, post.
    + intros (pre & post & H). left.
      destruct pre; [now exists post | discriminate].
  - rewrite starts_with_iff, IH. split.
    + intros [(post & H) | (pre & post & ->)].
      * now exists ""%string, post.
      * now exists (String b pre), post.
    + intros (pre & post & H). destruct pre as [|c pre].
      * left. now exists post.
      * right. cbn in H. injection H as -> ->. now exists pre, post.
Qed.

Lemma contains_trans (a b s : string) :
  contains a b = true -> contains b s = true -> contains a s = true.
Proof.
  rewrite !contains_iff. intros (p1 & q1 & ->) (p2 & q2 & ->).
  exists (p2 ++ p1)%string, (q1 ++ q2)%string.
  now rewrite !str_append_assoc.
Qed.

(** The two longer flux tests of the loop add nothing to the first one. *)
Lemma flux_tests_collapse (s : string) :
  contains "flux" s || contains "pdcsap_flux" s || contains "sap_flux" s
  = contains "flux" s.
Proof.
  destruct (contains "flux" s) eqn:Hf; [reflexivity|]. cbn [orb].
  destruct (contains "pdcsap_flux" s) eqn:Hp.
  { rewrite (contains_trans "flux" "pdcsap_flux" s eq_refl Hp) in Hf.
    discriminate. }
  destruct (contains "sap_flux" s) eqn:Hs; [|reflexivity].
  rewrite (contains_trans "flux" "sap_flux" s eq_refl Hs) in Hf.
  discriminate.
Qed.

(** ** The column search *)

Lemma column_loop (cols : list string) :
  forall time_col flux_col,
    fold_left Preprocess.column_step cols (time_col, flux_col)
    = (match time_col with Some _ => time_col | None => find time_like cols end,
       match flux_col with Some _ => flux_col | None => find flux_like cols end).
Proof.
  induction cols as [|c cols IH]; intros time_col flux_col.
  { now destruct time_col, flux_col. }
  cbn [fold_left find]. unfold Preprocess.column_step at 2.
  rewrite flux_tests_collapse. fold (time_like c). fold (flux_like c).
  rewrite IH.
  destruct time_col, flux_col, (time_like c), (flux_like c); reflexivity.
Qed.

Lemma find_map_fst {B} (p : string -> bool) (l : list (string * B)) :
  find p (map fst l) = option_map fst (find (fun col => p (fst col)) l).
Proof.
  induction l as [|[c v] l IH]; cbn; [reflexivity|].
  destruct (p c); [reflexivity | exact IH].
Qed.

Lemma csv_columns_eq (df : DataFrame) :
  Preprocess.csv_columns df
  = (option_map fst (find (fun col => time_like (fst col)) (df_data df)),
     option_map fst (find (fun col => flux_like (fst col)) (df_data df))).
Proof.
  unfold Preprocess.csv_columns, df_columns.
  now rewrite column_loop, !find_map_fst.
Qed.

(** X14.  The loop over the column labels picks, independently of each
    other, the first label that contains "time" and the first label that
    contains "flux", both regardless of case; the tests for "pdcsap_flux"
    and "sap_flux" never change the choice. *)
Theorem csv_columns_first_match (df : DataFrame) :
  Preprocess.csv_columns df
  = (find time_like (df_columns df), find flux_like (df_columns df)).
Proof. unfold Preprocess.csv_columns. apply column_loop. Qed.

Lemma find_by_label (p : string -> bool) (df : DataFrame) c v :
  find (fun col => p (fst col)) (df_data df) = Some (c, v) ->
  df_getitem df c = Ok v.
Proof.
  unfold df_getitem. induction (df_data df) as [|[c' v'] l IH]; cbn;
    [discriminate|].
  destruct (p c') eqn:Hp.
  - intros H. injection H as -> ->. now rewrite String.eqb_refl.
  - intros H. destruct (String.eqb_spec c' c) as [-> | _]; [|now apply IH].
    apply find_some in H as [_ H]. cbn in H. congruence.
Qed.

Lemma csv_suffix_is_not_fits (s : string) :
  in_tuple s [".csv"; ".txt"] = true -> in_tuple s [".fits"; ".fz"] = false.
Proof.
  unfold in_tuple. cbn [existsb]. rewrite !orb_true_iff, !String.eqb_eq.
  intros [-> | [-> | H]]; [reflexivity | reflexivity | discriminate].
Qed.

Section LoadCsv.

Variable path_exists : string -> bool.
Variable path_suffix : string -> string.
Variable lk_read : string -> res LightCurve.
Variable pd_read_csv : string -> res DataFrame.
Variable path : string.
Variable df : DataFrame.

Hypothesis Hexists : path_exists path = true.
Hypothesis Hsuffix :
  in_tuple (lower (path_suffix path)) [".csv"; ".txt"] = true.
Hypothesis Hread : pd_read_csv path = Ok df.

Lemma load_csv_steps :
  Preprocess.load_lightcurve path_exists path_suffix lk_read pd_read_csv
    path []
  = match find (fun col => time_like (fst col)) (df_data df),
          find (fun col => flux_like (fst col)) (df_data df) with
    | Some (_, time), Some (_, flux) =>
        (Ok {| samples := combine time flux |},
         [Preprocess.EvLogInfo "Loading %s" path; Preprocess.EvReadCsv path])
    | _, _ =>
        (Raise (ValueError "CSV must contain time and flux columns"),
         [Preprocess.EvLogInfo "Loading %s" path; Preprocess.EvReadCsv path])
    end.
Proof.
  unfold Preprocess.load_lightcurve.
  rewrite Hexists, (csv_suffix_is_not_fits _ Hsuffix), Hsuffix. cbn [negb].
  unfold t_bind, t_emit, t_lift, t_ret, t_raise. rewrite Hread. cbn [app].
  rewrite csv_columns_eq.
  destruct (find (fun col => time_like (fst col)) (df_data df))
    as [[tc tv]|] eqn:Ht; cbn [option_map fst];
    destruct (find (fun col => flux_like (fst col)) (df_data df))
      as [[fc fv]|] eqn:Hfl; cbn [option_map fst]; try reflexivity.
  now rewrite (find_by_label _ _ _ _ Ht), (find_by_label _ _ _ _ Hfl).
Qed.

End LoadCsv.


Lemma find_none_iff {A} (p : A -> bool) (l : list A) :
  find p l = None <-> Forall (fun x => p x = false) l.
Proof.
  split.
  - intros H. apply Forall_forall. now apply find_none.
  - induction 1 as [|x l Hx _ IH]; cbn; [reflexivity | now rewrite Hx].
Qed.

(** X16.  For such a file, [load_lightcurve] raises "CSV must contain time
    and flux columns" exactly when no column label contains "time" or no
    column label contains "flux" (case ignored). *)
Theorem load_lightcurve_missing_columns_iff path_exists path_suffix lk_read
  pd_read_csv path df :
  path_exists path = true ->
  in_tuple (lower (path_suffix path)) [".csv"; ".txt"] = true ->
  pd_read_csv path = Ok df ->
  fst (Preprocess.load_lightcurve path_exists path_suffix lk_read pd_read_csv
         path [])
  = Raise (ValueError "CSV must contain time and flux columns")
  <-> Forall (fun c => time_like c = false) (df_columns df)
      \/ Forall (fun c => flux_like c = false) (df_columns df).
Proof.
  intros Hex Hsfx Hread.
  rewrite (load_csv_steps _ _ lk_read _ _ _ Hex Hsfx Hread).
  rewrite <- !find_none_iff. unfold df_columns. rewrite !find_map_fst.
  destruct (find (fun col => time_like (fst col)) (df_data df))
    as [[tc tv]|]; cbn [option_map];
    destruct (find (fun col => flux_like (fst col)) (df_data df))
      as [[fc fv]|]; cbn [option_map fst]; split; auto;
    try discriminate.
  intros [H | H]; discriminate.
Qed.




(** * Downloading (download.py) *)

Lemma slice_to_spelled_out {A} (l : list A) (k : Z) :
  slice_to l k
  = if (0 <=? k)%Z then firstn (Z.to_nat k) l
    else firstn (List.length l - Z.to_nat (- k)) l.
Proof.
  unfold slice_to. destruct (Z.ltb_spec k 0), (Z.leb_spec 0 k); try lia.
  - f_equal. lia.
  - destruct (Z.le_gt_cases k (Z.of_nat (List.length l))).
    + f_equal. lia.
    + rewrite !firstn_all2 by lia. reflexivity.
Qed.

Section DownloadEvents.

Variable Entry : Type.
Variable Curve : Type.
Variable search_lightcurve : string -> string -> res (list Entry).
Variable download_all : list Entry -> res (option (list Curve)).
Variable stitch : list Curve -> res Curve.
Variable append : Curve -> Curve -> res Curve.

Lemma append_all_events (rest : list Curve) :
  forall stitched tr,
  exists evs,
    snd (Download.append_all append stitched rest tr) = tr ++ evs
    /\ Forall (fun ev : Download.event Entry Curve =>
              Download.is_download ev = false) evs.
Proof.
  induction rest as [|lc rest IH]; intros stitched tr; cbn.
  { exists []. now rewrite app_nil_r. }
  unfold t_bind, t_emit, t_lift.
  destruct (append stitched lc) as [stitched'|e].
  - destruct (IH stitched' (tr ++ [Download.EvAppend stitched lc]))
      as (evs & -> & Hevs).
    exists (Download.EvAppend stitched lc :: evs).
    rewrite <- app_assoc. split; [reflexivity|].
    constructor; [reflexivity | exact Hevs].
  - exists [Download.EvAppend stitched lc]. cbn. split; [reflexivity|].
    constructor; [reflexivity | constructor].
Qed.

Lemma no_download_filter (evs : list (Download.event Entry Curve)) :
  Forall (fun ev : Download.event Entry Curve =>
              Download.is_download ev = false) evs ->
  filter Download.is_download evs = [].
Proof.
  induction 1 as [|ev evs Hev _ IH]; cbn; [reflexivity | now rewrite Hev].
Qed.

(** The events of one call: some events without a download, the download of
    the chosen rows, and again events without a download. *)
Lemma search_and_download_events target mission limit sr :
  search_lightcurve target mission = Ok sr -> sr <> [] ->
  exists pre post,
    snd (Download.search_and_download search_lightcurve download_all stitch
           append target mission limit [])
    = pre ++ Download.EvDownloadAll
               (match limit with
                | Some k => if truthy_int limit then slice_to sr k else sr
                | None => sr
                end) :: post
    /\ Forall (fun ev : Download.event Entry Curve =>
              Download.is_download ev = false) pre /\ Forall (fun ev : Download.event Entry Curve =>
              Download.is_download ev = false) post.
Proof.
  intros Hsearch Hne. unfold Download.search_and_download.
  unfold t_bind at 1 2 3 4. unfold t_emit at 1 2 3. unfold t_lift at 1.
  rewrite Hsearch. cbn [app].
  destruct sr as [|r0 sr0] eqn:Hsr; [congruence|]. rewrite <- Hsr in *.
  assert (Hlen : (List.length sr =? 0)%nat = false) by now rewrite Hsr.
  rewrite Hlen.
  set (chosen := match limit with
                 | Some k => if truthy_int limit then slice_to sr k else sr
                 | None => sr
                 end).
  set (start := [Download.EvLogInfo "Searching for target: %s (mission=%s)"
                   [Download.LStr target; Download.LStr mission];
                 Download.EvSearch target mission;
                 Download.EvLogInfo "Found %d results"
                   [Download.LNum (Z.of_nat (List.length sr))]]
               : list (Download.event Entry Curve)).
  assert (Hstart : Forall (fun ev : Download.event Entry Curve =>
              Download.is_download ev = false) start)
    by (repeat constructor).
  assert (Hlimit : exists pre,
             Forall (fun ev : Download.event Entry Curve =>
              Download.is_download ev = false) pre
             /\ match limit with
                | Some k =>
                    if truthy_int limit then
                      run _ <- t_emit
                                 (Download.EvLogInfo
                                    "Limiting download to first %d search results"
                                    [Download.LNum k]);
                      t_ret (slice_to sr k)
                    else t_ret sr
                | None => t_ret sr
                end start
                = (Ok chosen, pre)).
  { unfold chosen. destruct limit as [k|]; [|now exists start].
    destruct (truthy_int (Some k)); [|now exists start].
    eexists. split; [|reflexivity].
    apply Forall_app. split; [exact Hstart|].
    repeat constructor. }
  destruct Hlimit as (pre & Hpre & Hlim).
  unfold t_bind at 1. rewrite Hlim.
  unfold t_bind at 1 2 3. unfold t_emit at 1 2. unfold t_lift at 1.
  set (pre' := pre ++ [Download.EvLogInfo
                         "Downloading lightcurves (this may take time depending on network)"
                         []]).
  assert (Hpre' : Forall (fun ev : Download.event Entry Curve =>
              Download.is_download ev = false) pre').
  { apply Forall_app. split; [exact Hpre|].
    repeat constructor. }
  exists pre'.
  destruct (download_all chosen) as [[coll|]|e].
  - unfold t_bind at 1. unfold t_emit at 1. unfold t_catch.
    unfold t_bind at 1. unfold t_emit at 1. unfold t_lift at 1.
    destruct (stitch coll) as [c|e].
    + eexists. rewrite <- !app_assoc. cbn [app snd]. split; [reflexivity|].
      split; [exact Hpre'|]. repeat constructor.
    + unfold t_bind at 1. unfold t_emit at 1.
      destruct coll as [|c0 coll0].
      * eexists. unfold t_raise. rewrite <- !app_assoc. cbn [app snd].
        split; [reflexivity|]. split; [exact Hpre'|].
        repeat constructor.
      * match goal with
        | |- context [Download.append_all append c0 coll0 ?tr] =>
            destruct (append_all_events coll0 c0 tr) as (evs & -> & Hevs)
        end.
        eexists. rewrite <- !app_assoc. cbn [app]. split; [reflexivity|].
        split; [exact Hpre'|].
        repeat (constructor; [reflexivity|]). exact Hevs.
  - exists []. unfold t_raise. cbn [snd].
    split; [reflexivity|]. split; [exact Hpre' | constructor].
  - exists []. cbn [snd].
    split; [reflexivity|]. split; [exact Hpre' | constructor].
Qed.

(** X18.  After a search with results, exactly one download is requested,
    and the rows handed to [download_all] are: all of them when the limit is
    absent or 0, the first [k] for a positive limit [k], and all but the
    last [-k] for a negative limit [k]. *)
Theorem download_limit_semantics target mission limit sr rs :
  search_lightcurve target mission = Ok sr -> sr <> [] ->
  List.length
    (filter Download.is_download
       (snd (Download.search_and_download search_lightcurve download_all
               stitch append target mission limit [])))
  = 1%nat
  /\ (In (Download.EvDownloadAll rs)
        (snd (Download.search_and_download search_lightcurve download_all
                stitch append target mission limit []))
      <-> rs = match limit with
               | None => sr
               | Some k =>
                   if (k =? 0)%Z then sr
                   else if (0 <? k)%Z then firstn (Z.to_nat k) sr
                   else firstn (List.length sr - Z.to_nat (- k)) sr
               end).
Proof.
  intros Hsearch Hne.
  destruct (search_and_download_events target mission limit sr Hsearch Hne)
    as (pre & post & -> & Hpre & Hpost).
  split.
  { rewrite filter_app. cbn [filter Download.is_download].
    rewrite (no_download_filter _ Hpre), (no_download_filter _ Hpost).
    reflexivity. }
  assert (Hchosen : match limit with
                    | Some k => if truthy_int limit then slice_to sr k else sr
                    | None => sr
                    end
                    = match limit with
                      | None => sr
                      | Some k =>
                          if (k =? 0)%Z then sr
                          else if (0 <? k)%Z then firstn (Z.to_nat k) sr
                          else firstn (List.length sr - Z.to_nat (- k)) sr
                      end).
  { destruct limit as [k|]; [|reflexivity]. cbn [truthy_int].
    destruct (Z.eqb_spec k 0); cbn [negb]; [reflexivity|].
    rewrite slice_to_spelled_out.
    destruct (Z.leb_spec 0 k), (Z.ltb_spec 0 k); try lia; reflexivity. }
  rewrite Hchosen. rewrite in_app_iff. cbn [In].
  rewrite Forall_forall in Hpre, Hpost. split.
  - intros [H | [H | H]].
    + apply Hpre in H. discriminate H.
    + now injection H.
    + apply Hpost in H. discriminate H.
  - intros ->. right. now left.
Qed.

End DownloadEvents.

(** * Plotting (plot.py) *)

Lemma str_append_inj_l (s a b : string) :
  (s ++ a)%string = (s ++ b)%string -> a = b.
Proof.
  induction s as [|c s IH]; cbn; [trivial|]. intros H. injection H as H.
  now apply IH.
Qed.

(** ** Pieces of a computation *)

Lemma never_ok_bind {E A B} (c : T E A) (k : A -> T E B) :
  (forall a, never_ok (k a)) -> never_ok (t_bind c k).
Proof.
  intros Hk tr. unfold t_bind. destruct (c tr) as [[a|e] tr'].
  - apply Hk.
  - now exists e.
Qed.

Lemma keeps_bind {E A B} (P : list E -> Prop) (c : T E A) (k : A -> T E B) :
  keeps P c -> (forall a, keeps P (k a)) -> keeps P (t_bind c k).
Proof.
  intros Hc Hk tr Htr. unfold t_bind. specialize (Hc tr Htr).
  destruct (c tr) as [[a|e] tr']; cbn [snd] in *; [now apply Hk | exact Hc].
Qed.

Lemma keeps_lift {E A} (P : list E -> Prop) (r : res A) : keeps P (t_lift r).
Proof. now intros tr Htr. Qed.

Lemma keeps_ret {E A} (P : list E -> Prop) (a : A) : keeps P (t_ret a).
Proof. now intros tr Htr. Qed.

Lemma keeps_raise {E A} (P : list E -> Prop) (e : exn) :
  keeps P (@t_raise E A e).
Proof. now intros tr Htr. Qed.

Lemma keeps_emit_other {E} (bad ev : E) :
  ev <> bad -> keeps (fun tr => ~ In bad tr) (t_emit ev).
Proof.
  intros Hne tr Htr. unfold t_emit. cbn [snd]. rewrite in_app_iff.
  intros [H | [H | []]]; [now apply Htr | congruence].
Qed.

Section PlotTrace.

Variable lk_read : string -> res LightCurve.
Variable pd_read_csv : string -> res DataFrame.
Variable lc_fold : LightCurve -> float64 -> res (list float64 * list float64).
Variable mkdir_parent : string -> res unit.
Variable plt : Plot.plt_call -> res unit.
Variable bad : string.

Lemma call_plt_keeps (c : Plot.plt_call) :
  c <> Plot.Savefig bad ->
  keeps (fun tr => ~ In (Plot.EvPlt (Plot.Savefig bad)) tr)
    (Plot.call_plt plt c).
Proof.
  intros Hc. unfold Plot.call_plt. apply keeps_bind.
  - apply keeps_emit_other. congruence.
  - intros _. apply keeps_lift.
Qed.

Lemma call_mkdir_keeps (path : string) :
  keeps (fun tr => ~ In (Plot.EvPlt (Plot.Savefig bad)) tr)
    (Plot.call_mkdir mkdir_parent path).
Proof.
  unfold Plot.call_mkdir. apply keeps_bind.
  - apply keeps_emit_other. discriminate.
  - intros _. apply keeps_lift.
Qed.

Lemma plot_lightcurve_keeps lc out_path title :
  out_path <> bad ->
  keeps (fun tr => ~ In (Plot.EvPlt (Plot.Savefig bad)) tr)
    (Plot.plot_lightcurve mkdir_parent plt lc out_path title).
Proof.
  intros Hne. unfold Plot.plot_lightcurve.
  repeat (apply keeps_bind;
          [first [apply call_mkdir_keeps
                 | apply call_plt_keeps; congruence] | intros _]).
  apply keeps_emit_other. discriminate.
Qed.

Lemma plot_bls_keeps periods power out_path :
  out_path <> bad ->
  keeps (fun tr => ~ In (Plot.EvPlt (Plot.Savefig bad)) tr)
    (Plot.plot_bls mkdir_parent plt periods power out_path).
Proof.
  intros Hne. unfold Plot.plot_bls.
  repeat (apply keeps_bind;
          [first [apply call_mkdir_keeps
                 | apply call_plt_keeps; congruence] | intros _]).
  apply keeps_emit_other. discriminate.
Qed.

Lemma plot_phase_fold_keeps lc period out_path bins :
  keeps (fun tr => ~ In (Plot.EvPlt (Plot.Savefig bad)) tr)
    (Plot.plot_phase_fold lc_fold plt lc period out_path bins).
Proof.
  unfold Plot.plot_phase_fold. apply keeps_bind; [apply keeps_lift|].
  intros folded.
  repeat (apply keeps_bind; [apply call_plt_keeps; discriminate | intros _]).
  apply keeps_raise.
Qed.

Lemma plot_phase_fold_never_ok lc period out_path bins :
  never_ok (Plot.plot_phase_fold lc_fold plt lc period out_path bins).
Proof.
  unfold Plot.plot_phase_fold.
  repeat (apply never_ok_bind; intros ?).
  intros tr. eexists. reflexivity.
Qed.

End PlotTrace.

(** X19.  Whenever [main] is given a period that counts as true (any value
    but 0), it does not return normally and [plt.savefig] is never called
    for the phase figure, whatever the readers, the fold, the directory
    creation and matplotlib do: [plot_phase_fold] uses [np] before the
    [import] inside its own body has bound it. *)
Theorem plot_main_phase_fold_never_completes lk_read pd_read_csv lc_fold
  mkdir_parent plt args p :
  Plot.period args = Some p ->
  (p =? F64.zero)%f64 = false ->
  (exists e,
      fst (Plot.main lk_read pd_read_csv lc_fold mkdir_parent plt args [])
      = Raise e)
  /\ ~ In (Plot.EvPlt
             (Plot.Savefig (Plot.out_prefix args ++ "_phase.png")%string))
         (snd (Plot.main lk_read pd_read_csv lc_fold mkdir_parent plt args
                 [])).
Proof.
  intros Hperiod Htrue.
  assert (Hlc : (Plot.out_prefix args ++ "_lightcurve.png")%string
                <> (Plot.out_prefix args ++ "_phase.png")%string)
    by (intros H; apply str_append_inj_l in H; discriminate H).
  assert (Hbls : (Plot.out_prefix args ++ "_bls.png")%string
                 <> (Plot.out_prefix args ++ "_phase.png")%string)
    by (intros H; apply str_append_inj_l in H; discriminate H).
  unfold Plot.main. rewrite Hperiod. cbn [truthy_float]. rewrite Htrue.
  cbn [negb]. split.
  - apply never_ok_bind. intros lc0.
    apply never_ok_bind. intros _.
    apply never_ok_bind. intros _.
    apply plot_phase_fold_never_ok.
  - match goal with
    | |- ~ In ?ev (snd (?c [])) =>
        assert (Hkeep : keeps (fun tr => ~ In ev tr) c)
    end.
    { apply keeps_bind; [apply keeps_lift|]. intros lc0.
      apply keeps_bind; [now apply plot_lightcurve_keeps|]. intros _.
      apply keeps_bind.
      - destruct (Plot.bls args) as [path|]; [|apply keeps_ret].
        destruct (truthy_str (Some path)); [|apply keeps_ret].
        repeat (apply keeps_bind; [apply keeps_lift | intros ?]).
        now apply plot_bls_keeps.
      - intros _. apply plot_phase_fold_keeps. }
    apply Hkeep. intros [].
Qed.

(** ** Where the errors of [run_bls] come from *)

(** X20.  An exception out of [run_bls] has one of three origins: fewer
    than ten valid samples, a negative number of periods (the ValueError of
    [linspace]), or the primitive itself, called on the filtered samples and
    the grids.  With ten valid samples and a count that is not negative the
    primitive is always reached, whatever the two periods are. *)
Theorem run_bls_error_sources (bls : bls_primitive) lc mn mx n f tr e :
  fst (run_bls bls lc mn mx n f tr) = Raise e ->
  ((List.length (filter both_finite (samples lc)) < 10)%nat
   /\ e = not_enough_points)
  \/ ((n < 0)%Z
      /\ e = ValueError ("Number of samples, " ++ string_of_Z n
                           ++ ", must be non-negative.")%string)
  \/ (exists ps ds,
         run_bls_grids mn mx n f = Ok (ps, ds)
         /\ bls (fst (run_bls_filter lc)) (snd (run_bls_filter lc)) ps ds
            = Raise e).
Proof.
  rewrite (run_bls_steps bls _ _ _ _ _ _ _ _ (run_bls_filter_columns lc)).
  rewrite run_bls_filter_columns, length_map. cbn [fst snd].
  destruct (Z.ltb_spec (Z.of_nat (List.length
              (filter both_finite (samples lc)))) 10) as [Hlt | Hge].
  { cbn [fst]. intros H. injection H as <-. left. split; [lia | reflexivity]. }
  destruct (run_bls_grids mn mx n f) as [[ps ds]|e0] eqn:Hgrid.
  - destruct (bls _ _ ps ds) as [r|e1] eqn:Hbls; cbn [fst]; [discriminate|].
    intros H. injection H as <-. right. right. now exists ps, ds.
  - cbn [fst]. intros H. injection H as <-. right. left.
    destruct (Z.ltb_spec n 0) as [Hn | Hn].
    + split; [exact Hn|]. unfold run_bls_grids, linspace in Hgrid.
      destruct (Z.ltb_spec n 0); [|lia]. cbn in Hgrid. now injection Hgrid.
    + destruct (linspace_total mn mx n Hn) as (ps & Hlin & _).
      unfold run_bls_grids in Hgrid. rewrite Hlin in Hgrid. discriminate.
Qed.

(** * The further properties on concrete runs *)

Lemma run_bls_primitive_sees_valid_samples_witness :
  exists t y ps ds,
    In (EvBlsPower t y ps ds)
      (snd (run_bls bls_flat lc12 (Fin (1 # 2)) (Fin 10) 3 default_fraction
              []))
    /\ List.length t = List.length y
    /\ (10 <= List.length t)%nat
    /\ Forall (fun v => F64.isfinite v = true) y.
Proof.
  assert (Hin : exists t y ps ds,
             In (EvBlsPower t y ps ds)
               (snd (run_bls bls_flat lc12 (Fin (1 # 2)) (Fin 10) 3
                       default_fraction [])))
    by (vm_compute; do 4 eexists; right; left; reflexivity).
  destruct Hin as (t & y & ps & ds & Hin). exists t, y, ps, ds.
  destruct (run_bls_primitive_sees_valid_samples bls_flat lc12 (Fin (1 # 2))
              (Fin 10) 3 default_fraction t y ps ds Hin)
    as (_ & Hlen & Hten & _ & Hy & _).
  repeat split; assumption.
Defined.

Lemma main_summary_matches_table_witness :
  fst (main bls_flat read_lc12 String.append (args_default "bls.csv") [])
  = Ok tt
  /\ exists ps r bp bw k,
      bls_flat (fst (run_bls_filter lc12)) (snd (run_bls_filter lc12)) ps
        (period_to_duration_guess ps default_fraction)
      = Ok r
      /\ filter is_persistence
           (snd (main bls_flat read_lc12 String.append
                   (args_default "bls.csv") []))
         = [EvToCsv "bls.csv" ps (power r);
            EvWriteJson "bls.csv.summary.json"
              [("best_period", bp); ("best_power", bw)]]
      /\ nth_error ps k = Some bp
      /\ nth_error (power r) k = Some bw.
Proof.
  assert (Hok : fst (main bls_flat read_lc12 String.append
                       (args_default "bls.csv") []) = Ok tt)
    by (vm_compute; reflexivity).
  split; [exact Hok|].
  destruct (main_summary_matches_table bls_flat read_lc12 String.append
              (args_default "bls.csv") Hok)
    as (lc & ps & r & bp & bw & k & Hread & _ & Hbls & Htr & Hp & Hw).
  injection Hread as <-.
  exists ps, r, bp, bw, k. repeat split; assumption.
Defined.

Lemma main_table_without_summary_witness :
  exists t y ps ds pw,
    main bls_nan read_lc12 String.append (args_default "bls.csv") []
    = (Raise (ValueError "All-NaN slice encountered"),
       [grid_log (Fin (1 # 2)) (Fin 10) 3;
        EvBlsPower t y ps ds;
        EvToCsv "bls.csv" ps pw]).
Proof.
  do 5 eexists.
  eapply (main_table_without_summary bls_nan read_lc12 String.append
            (args_default "bls.csv") lc12).
  - reflexivity.
  - vm_compute. reflexivity.
  - vm_compute. lia.
  - vm_compute. reflexivity.
  - vm_compute. reflexivity.
  - discriminate.
  - reflexivity.
Defined.

Lemma duration_guess_nan_or_in_range_witness :
  exists d,
    nth_error (period_to_duration_guess [Fin 1; Fin 0] PInf) 1 = Some d
    /\ F64.isnan d = F64.isnan (PInf * Fin 0)%f64
    /\ (F64.isnan d = false ->
        (min_duration <=? d)%f64 = true /\ (d <=? max_duration)%f64 = true).
Proof.
  apply (duration_guess_nan_or_in_range [Fin 1; Fin 0] PInf 1 (Fin 0)).
  reflexivity.
Defined.

(** The default configuration: 0.5 to 10 days in 20000 points, fraction
    0.05. *)
Lemma longest_duration_reaches_shortest_period_witness :
  valid_config (Fin (1 # 2)) (Fin 10) 20000 = true
  /\ exists periods durations p0 dl,
      run_bls_grids (Fin (1 # 2)) (Fin 10) 20000 default_fraction
      = Ok (periods, durations)
      /\ nth_error periods 0 = Some p0
      /\ nth_error durations (Z.to_nat 20000 - 1) = Some dl
      /\ (dl =? max_duration)%f64 = true
      /\ (p0 <=? dl)%f64 = true.
Proof.
  split; [reflexivity|].
  apply (longest_duration_reaches_shortest_period (Fin (1 # 2)) (Fin 10)
           20000 default_fraction); reflexivity.
Defined.

Lemma pick_best_extra_periods_ignored_witness :
  pick_best ([Fin 1; Fin 2] ++ [Fin 3; Fin 4]) [Fin 7; Fin 9]
  = pick_best [Fin 1; Fin 2] [Fin 7; Fin 9].
Proof.
  apply (pick_best_extra_periods_ignored [Fin 1; Fin 2] [Fin 3; Fin 4]
           [Fin 7; Fin 9]).
  cbn. lia.
Defined.

Lemma pick_best_index_error_iff_witness :
  exists msg, pick_best [Fin 1] [Fin 7; Fin 9] = Raise (IndexError msg).
Proof.
  apply (proj2 (proj1 (pick_best_index_error_iff [Fin 1] [Fin 7; Fin 9]))).
  exists 1%nat. split; [reflexivity | cbn; lia].
Defined.

Lemma pick_best_only_nan_and_minus_inf_witness :
  pick_best [Fin 1; Fin 2; Fin 3] [NaN; NInf; NaN] = Ok (Fin 1, NaN).
Proof.
  apply (pick_best_only_nan_and_minus_inf (Fin 1) [Fin 2; Fin 3] NaN
           [NInf; NaN]).
  - repeat (apply Forall_cons;
            [(left; reflexivity) || (right; reflexivity)|]).
    apply Forall_nil.
  - right. left. reflexivity.
Defined.

Lemma pick_best_nan_rows_removable_witness :
  pick_best [Fin 2; Fin 3] [Fin 7; Fin 7]
  = pick_best [Fin 1; Fin 2; Fin 3] [NaN; Fin 7; Fin 7].
Proof.
  apply (pick_best_nan_rows_removable [Fin 1; Fin 2; Fin 3]
           [NaN; Fin 7; Fin 7]).
  - reflexivity.
  - exists (Fin 7). split; [right; left; reflexivity | reflexivity].
Defined.


Lemma load_lightcurve_missing_columns_iff_witness :
  fst (Preprocess.load_lightcurve (fun _ => true) (fun _ => ".txt")
         (fun _ => Raise (ValueError "not a FITS file"))
         (fun _ => Ok df_no_flux) "raw.txt" [])
  = Raise (ValueError "CSV must contain time and flux columns").
Proof.
  apply (proj2 (load_lightcurve_missing_columns_iff (fun _ => true)
                  (fun _ => ".txt")
                  (fun _ => Raise (ValueError "not a FITS file"))
                  (fun _ => Ok df_no_flux) "raw.txt" df_no_flux
                  eq_refl eq_refl eq_refl)).
  right. repeat constructor.
Defined.


(** A limit of 0 downloads the three rows; a limit of -1 the first two. *)
Lemma download_limit_semantics_witness :
  In (Download.EvDownloadAll [1; 2; 3]%nat)
    (snd (Download.search_and_download search_three download_ids stitch_sum
            append_sum "TIC 25155310" "TESS" (Some 0%Z) []))
  /\ In (Download.EvDownloadAll [1; 2]%nat)
       (snd (Download.search_and_download search_three download_ids
               stitch_sum append_sum "TIC 25155310" "TESS" (Some (-1)%Z) [])).
Proof.
  split.
  - apply (proj2 (proj2 (download_limit_semantics nat nat search_three
                           download_ids stitch_sum append_sum "TIC 25155310"
                           "TESS" (Some 0%Z) [1; 2; 3]%nat [1; 2; 3]%nat
                           eq_refl ltac:(discriminate)))).
    reflexivity.
  - apply (proj2 (proj2 (download_limit_semantics nat nat search_three
                           download_ids stitch_sum append_sum "TIC 25155310"
                           "TESS" (Some (-1)%Z) [1; 2; 3]%nat [1; 2]%nat
                           eq_refl ltac:(discriminate)))).
    reflexivity.
Defined.

Lemma plot_main_phase_fold_never_completes_witness :
  (exists e,
      fst (Plot.main read_lc12 (fun _ => Ok df_tess) fold_identity mkdir_ok
             plt_ok plot_args []) = Raise e)
  /\ ~ In (Plot.EvPlt (Plot.Savefig "plots/figure_phase.png"))
         (snd (Plot.main read_lc12 (fun _ => Ok df_tess) fold_identity
                 mkdir_ok plt_ok plot_args [])).
Proof.
  exact (plot_main_phase_fold_never_completes read_lc12
           (fun _ => Ok df_tess) fold_identity mkdir_ok plt_ok plot_args
           (Fin (3 # 1)) eq_refl eq_refl).
Defined.

Lemma run_bls_error_sources_witness :
  fst (run_bls bls_flat lc12 (Fin (1 # 2)) (Fin 10) (-1) default_fraction [])
  = Raise (ValueError "Number of samples, -1, must be non-negative.")
  /\ ((List.length (filter both_finite (samples lc12)) < 10)%nat
      /\ ValueError "Number of samples, -1, must be non-negative."
         = not_enough_points
      \/ ((-1 < 0)%Z
          /\ ValueError "Number of samples, -1, must be non-negative."
             = ValueError ("Number of samples, " ++ string_of_Z (-1)
                             ++ ", must be non-negative.")%string)
      \/ exists ps ds,
          run_bls_grids (Fin (1 # 2)) (Fin 10) (-1) default_fraction
          = Ok (ps, ds)
          /\ bls_flat (fst (run_bls_filter lc12)) (snd (run_bls_filter lc12))
               ps ds
             = Raise (ValueError
                        "Number of samples, -1, must be non-negative.")).
Proof.
  assert (Hraise :
    fst (run_bls bls_flat lc12 (Fin (1 # 2)) (Fin 10) (-1) default_fraction
           [])
    = Raise (ValueError "Number of samples, -1, must be non-negative."))
    by (vm_compute; reflexivity).
  split; [exact Hraise|].
  exact (run_bls_error_sources bls_flat lc12 (Fin (1 # 2)) (Fin 10) (-1)
           default_fraction [] _ Hraise).
Defined.
